(** * ProviderManager: schema validation and the JSON import / export

    A shallow embedding of [src/components/ProviderManager.tsx]: the zod
    schemas ([ModelSchema], [ProviderSchema], [ProvidersListSchema],
    [FormSchema]), the handlers [onSubmit] and [handleImport], and the
    field-array operations bound to the buttons.

    The component leans on four things that are not part of the repository:
    [JSON.parse] and [JSON.stringify] (ECMA-262), [String.prototype.trim],
    zod's parsers (version 3 semantics) and react-hook-form's [useForm] /
    [useFieldArray].  Each is modelled below as far as the component uses
    it.  Two parts of the platform are left as parameters of the section:
    the IEEE-754 numbers a JSON text may contain, and what the URL parser
    does once it has read a scheme. *)

From Stdlib Require Import NArith List String Ascii Bool Lia.
From stdpp Require Import base list numbers.

Local Open Scope N_scope.

(** ** JavaScript strings: sequences of UTF-16 code units *)

Definition jstring := list N.

(** An ASCII literal as code units. *)
Definition u16 (s : string) : jstring := map N_of_ascii (list_ascii_of_string s).

(** The same, with every apostrophe of the literal standing for a double
    quote (code unit 34), so that JSON texts can be written down. *)
Definition u16q (s : string) : jstring :=
  map (fun c => if N.eqb c 39 then 34 else c) (u16 s).

Fixpoint jstring_eqb (a b : jstring) : bool :=
  match a, b with
  | [], [] => true
  | x :: a', y :: b' => N.eqb x y && jstring_eqb a' b'
  | _, _ => false
  end.

(** [String.prototype.trim]: WhiteSpace and LineTerminator code points of
    ECMA-262 (all of them are in the basic plane). *)
Definition isWhiteSpaceOrLineTerminator (c : N) : bool :=
  (c =? 9) || (c =? 10) || (c =? 11) || (c =? 12) || (c =? 13) || (c =? 32)
  || (c =? 160) || (c =? 5760) || ((8192 <=? c) && (c <=? 8202))
  || (c =? 8232) || (c =? 8233) || (c =? 8239) || (c =? 8287)
  || (c =? 12288) || (c =? 65279).

Fixpoint trimStart (s : jstring) : jstring :=
  match s with
  | c :: s' => if isWhiteSpaceOrLineTerminator c then trimStart s' else s
  | [] => []
  end.

Definition trim (s : jstring) : jstring := rev (trimStart (rev (trimStart s))).

(** Truthiness of a string: the empty string is the only falsy one. *)
Definition truthy (s : jstring) : bool :=
  match s with [] => false | _ => true end.

(** ** Character classes of the JSON grammar *)

Definition isJSONWhiteSpace (c : N) : bool :=
  (c =? 9) || (c =? 10) || (c =? 13) || (c =? 32).

Definition isDigit (c : N) : bool := (48 <=? c) && (c <=? 57).

Definition hexValue (c : N) : option N :=
  if isDigit c then Some (c - 48)
  else if (97 <=? c) && (c <=? 102) then Some (c - 87)
  else if (65 <=? c) && (c <=? 70) then Some (c - 55)
  else None.

(** The character after a backslash, for the two-character escapes. *)
Definition unescape (c : N) : option N :=
  if c =? 34 then Some 34          (* quote *)
  else if c =? 92 then Some 92     (* backslash *)
  else if c =? 47 then Some 47     (* slash *)
  else if c =? 98 then Some 8      (* backspace *)
  else if c =? 102 then Some 12    (* form feed *)
  else if c =? 110 then Some 10    (* line feed *)
  else if c =? 114 then Some 13    (* carriage return *)
  else if c =? 116 then Some 9     (* tab *)
  else None.

(** JSON numbers: an optional minus sign; then a zero, or a non-zero digit
    and more digits; then optionally a dot and one digit or more; then
    optionally an exponent mark, an optional sign and one digit or more. *)
Inductive numstate :=
  NMinus | NZero | NInt | NDot | NFrac | NExp | NExpSign | NExpDigits.

Definition isExponentMark (c : N) : bool := (c =? 101) || (c =? 69).

Definition num_start (c : N) : option numstate :=
  if c =? 45 then Some NMinus
  else if c =? 48 then Some NZero
  else if isDigit c then Some NInt
  else None.

Definition num_step (s : numstate) (c : N) : option numstate :=
  match s with
  | NMinus => if c =? 48 then Some NZero else if isDigit c then Some NInt else None
  | NZero => if c =? 46 then Some NDot else if isExponentMark c then Some NExp else None
  | NInt => if isDigit c then Some NInt else if c =? 46 then Some NDot
            else if isExponentMark c then Some NExp else None
  | NDot => if isDigit c then Some NFrac else None
  | NFrac => if isDigit c then Some NFrac else if isExponentMark c then Some NExp else None
  | NExp => if (c =? 43) || (c =? 45) then Some NExpSign
            else if isDigit c then Some NExpDigits else None
  | NExpSign => if isDigit c then Some NExpDigits else None
  | NExpDigits => if isDigit c then Some NExpDigits else None
  end.

Definition num_final (s : numstate) : bool :=
  match s with
  | NZero | NInt | NFrac | NExpDigits => true
  | _ => false
  end.

(** ** QuoteJSONString (ECMA-262, with well-formed JSON.stringify) *)

Definition hexDigit (d : N) : N := if d <? 10 then 48 + d else 87 + d.

Definition UnicodeEscape (c : N) : jstring :=
  [92; 117; hexDigit (c / 4096 mod 16); hexDigit (c / 256 mod 16);
   hexDigit (c / 16 mod 16); hexDigit (c mod 16)].

Definition isLeadingSurrogate (c : N) : bool := (55296 <=? c) && (c <=? 56319).
Definition isTrailingSurrogate (c : N) : bool := (56320 <=? c) && (c <=? 57343).

(** The escape table of QuoteJSONString. *)
Definition escapeChar (c : N) : option N :=
  if c =? 8 then Some 98
  else if c =? 9 then Some 116
  else if c =? 10 then Some 110
  else if c =? 12 then Some 102
  else if c =? 13 then Some 114
  else if c =? 34 then Some 34
  else if c =? 92 then Some 92
  else None.

(** A leading surrogate followed by a trailing one is one code point and is
    written as it is; a surrogate on its own is escaped. *)
Fixpoint QuoteBody (s : jstring) : jstring :=
  match s with
  | [] => []
  | c :: s' =>
      match escapeChar c with
      | Some e => 92 :: e :: QuoteBody s'
      | None =>
          if c <? 32 then UnicodeEscape c ++ QuoteBody s'
          else if isLeadingSurrogate c then
            match s' with
            | d :: s'' =>
                if isTrailingSurrogate d then c :: d :: QuoteBody s''
                else UnicodeEscape c ++ QuoteBody s'
            | [] => UnicodeEscape c
            end
          else if isTrailingSurrogate c then UnicodeEscape c ++ QuoteBody s'
          else c :: QuoteBody s'
      end
  end.

Definition QuoteJSONString (s : jstring) : jstring := 34 :: QuoteBody s ++ [34].

Fixpoint join (sep : jstring) (parts : list jstring) : jstring :=
  match parts with
  | [] => []
  | [p] => p
  | p :: rest => p ++ sep ++ join sep rest
  end.

(** ** The URL parser, as far as the scheme

    [new URL(input)] without a base (WHATWG URL, basic URL parser): leading
    and trailing C0 controls and spaces are stripped, tabs and newlines are
    removed, and the scheme start state and the scheme state run.  Without a
    scheme the no-scheme state fails for want of a base. *)

Definition isC0ControlOrSpace (c : N) : bool := c <=? 32.
Definition isASCIITabOrNewline (c : N) : bool := (c =? 9) || (c =? 10) || (c =? 13).
Definition isASCIIUpperAlpha (c : N) : bool := (65 <=? c) && (c <=? 90).
Definition isASCIILowerAlpha (c : N) : bool := (97 <=? c) && (c <=? 122).
Definition isASCIIAlpha (c : N) : bool := isASCIIUpperAlpha c || isASCIILowerAlpha c.
Definition isASCIIAlphanumeric (c : N) : bool := isDigit c || isASCIIAlpha c.
Definition asciiLowercase (c : N) : N := if isASCIIUpperAlpha c then c + 32 else c.

Fixpoint stripLeadingC0 (s : jstring) : jstring :=
  match s with
  | c :: s' => if isC0ControlOrSpace c then stripLeadingC0 s' else s
  | [] => []
  end.

Definition urlPreprocess (input : jstring) : jstring :=
  List.filter (fun c => negb (isASCIITabOrNewline c))
              (rev (stripLeadingC0 (rev (stripLeadingC0 input)))).

(** Scheme state: [buffer] holds the scheme read so far, in reverse. *)
Fixpoint schemeState (buffer : jstring) (input : jstring) : option (jstring * jstring) :=
  match input with
  | [] => None
  | c :: rest =>
      if isASCIIAlphanumeric c || (c =? 43) || (c =? 45) || (c =? 46)
      then schemeState (asciiLowercase c :: buffer) rest
      else if c =? 58 then Some (rev buffer, rest)
      else None
  end.

(** Scheme start state, then scheme state. *)
Definition parseScheme (input : jstring) : option (jstring * jstring) :=
  match urlPreprocess input with
  | c :: rest => if isASCIIAlpha c then schemeState [asciiLowercase c] rest else None
  | [] => None
  end.

(** ** A platform for the examples

    Numbers kept as the literal that wrote them, and a URL parser that
    accepts whatever follows a scheme. *)

Definition LiteralNumber : Type := jstring.
Definition literalOf (lexeme : jstring) : LiteralNumber := lexeme.
Definition literalToJSON (n : LiteralNumber) : jstring := n.
Definition anyAfterScheme (scheme rest : jstring) : bool := true.

Section ProviderManager.

(** The numbers of a JSON text are IEEE-754 doubles.  Their type, the value
    of a numeric literal and how [JSON.stringify] writes a number are kept
    abstract: no schema of the component accepts a number. *)
Variable Number : Type.
Variable StringToNumber : jstring -> Number.
Variable NumberToJSON : Number -> jstring.

(** What the URL parser answers once a scheme has been read: given the
    scheme and the rest of the input, whether parsing succeeds. *)
Variable URL_after_scheme : jstring -> jstring -> bool.

(** [new URL(input)] does not throw. *)
Definition URL_canParse (input : jstring) : bool :=
  match parseScheme input with
  | Some (scheme, rest) => URL_after_scheme scheme rest
  | None => false
  end.

(** ** JSON values

    What [JSON.parse] returns.  An object keeps its members as written, in
    order; reading a property takes the last member of that name ([Get]),
    since a repeated name overwrites the earlier one. *)

Local Unset Elimination Schemes.

Inductive value :=
| VNull
| VBool (b : bool)
| VNum (n : Number)
| VStr (s : jstring)
| VArr (items : list value)
| VObj (members : list (jstring * value)).

Local Set Elimination Schemes.

Fixpoint Get (key : jstring) (members : list (jstring * value)) : option value :=
  match members with
  | [] => None
  | (k, v) :: rest =>
      match Get key rest with
      | Some w => Some w
      | None => if jstring_eqb k key then Some v else None
      end
  end.

(** ** JSON.parse

    A pushdown automaton over the code units of the text.  The stack holds
    the containers that are open, each with what it has collected (latest
    first), and the member name a value is awaited for.

    The code units of the punctuation: 34 the double quote, 44 the comma,
    58 the colon, 91 and 93 the square brackets, 92 the backslash, 123 and
    125 the braces; 116, 102 and 110 are the letters t, f and n that start
    a literal, 117 the letter u of a hexadecimal escape. *)

Inductive frame :=
| FArr (acc : list value)
| FObj (acc : list (jstring * value))
| FKey (key : jstring).

Inductive strstate :=
| SNormal
| SEscape
| SHex (count : nat) (code : N).

Inductive mode :=
| ExpValue
| ExpValueOrEnd
| ExpKey
| ExpKeyOrEnd
| ExpColon (key : jstring)
| InString (iskey : bool) (acc : jstring) (s : strstate)
| InNumber (acc : jstring) (s : numstate)
| InLiteral (rest : jstring) (v : value)
| AfterValue
| Done (v : value).

Definition pstate : Type := mode * list frame.

(** A finished value goes to the innermost open container, or is the result. *)
Definition deliver (v : value) (stk : list frame) : option pstate :=
  match stk with
  | [] => Some (Done v, [])
  | FArr acc :: k => Some (AfterValue, FArr (v :: acc) :: k)
  | FKey key :: FObj acc :: k => Some (AfterValue, FObj ((key, v) :: acc) :: k)
  | _ => None
  end.

Definition start_value (stk : list frame) (c : N) : option pstate :=
  if c =? 91 then Some (ExpValueOrEnd, FArr [] :: stk)
  else if c =? 123 then Some (ExpKeyOrEnd, FObj [] :: stk)
  else if c =? 34 then Some (InString false [] SNormal, stk)
  else if c =? 116 then Some (InLiteral (u16 "rue") (VBool true), stk)
  else if c =? 102 then Some (InLiteral (u16 "alse") (VBool false), stk)
  else if c =? 110 then Some (InLiteral (u16 "ull") VNull, stk)
  else match num_start c with
       | Some s => Some (InNumber [c] s, stk)
       | None => None
       end.

(** After a value: a separator, the end of the container, or white space. *)
Definition step_post (m : mode) (stk : list frame) (c : N) : option pstate :=
  match m with
  | Done v => if isJSONWhiteSpace c then Some (Done v, stk) else None
  | AfterValue =>
      if isJSONWhiteSpace c then Some (AfterValue, stk)
      else match stk with
           | FArr acc :: k =>
               if c =? 44 then Some (ExpValue, stk)
               else if c =? 93 then deliver (VArr (rev acc)) k
               else None
           | FObj acc :: k =>
               if c =? 44 then Some (ExpKey, stk)
               else if c =? 125 then deliver (VObj (rev acc)) k
               else None
           | _ => None
           end
  | _ => None
  end.

Definition step_string (iskey : bool) (acc : jstring) (s : strstate)
    (stk : list frame) (c : N) : option pstate :=
  match s with
  | SNormal =>
      if c =? 34 then
        if iskey then Some (ExpColon (rev acc), stk)
        else deliver (VStr (rev acc)) stk
      else if c =? 92 then Some (InString iskey acc SEscape, stk)
      else if c <? 32 then None
      else Some (InString iskey (c :: acc) SNormal, stk)
  | SEscape =>
      match unescape c with
      | Some d => Some (InString iskey (d :: acc) SNormal, stk)
      | None => if c =? 117 then Some (InString iskey acc (SHex 0 0), stk) else None
      end
  | SHex count code =>
      match hexValue c with
      | Some d =>
          if Nat.eqb count 3
          then Some (InString iskey (code * 16 + d :: acc) SNormal, stk)
          else Some (InString iskey acc (SHex (S count) (code * 16 + d)), stk)
      | None => None
      end
  end.

Definition step (st : pstate) (c : N) : option pstate :=
  let (m, stk) := st in
  match m with
  | ExpValue => if isJSONWhiteSpace c then Some st else start_value stk c
  | ExpValueOrEnd =>
      if isJSONWhiteSpace c then Some st
      else if c =? 93 then
        match stk with
        | FArr [] :: k => deliver (VArr []) k
        | _ => None
        end
      else start_value stk c
  | ExpKey =>
      if isJSONWhiteSpace c then Some st
      else if c =? 34 then Some (InString true [] SNormal, stk)
      else None
  | ExpKeyOrEnd =>
      if isJSONWhiteSpace c then Some st
      else if c =? 125 then
        match stk with
        | FObj [] :: k => deliver (VObj []) k
        | _ => None
        end
      else if c =? 34 then Some (InString true [] SNormal, stk)
      else None
  | ExpColon key =>
      if isJSONWhiteSpace c then Some st
      else if c =? 58 then Some (ExpValue, FKey key :: stk)
      else None
  | InString iskey acc s => step_string iskey acc s stk c
  | InNumber acc s =>
      match num_step s c with
      | Some s' => Some (InNumber (c :: acc) s', stk)
      | None =>
          if num_final s then
            match deliver (VNum (StringToNumber (rev acc))) stk with
            | Some (m', stk') => step_post m' stk' c
            | None => None
            end
          else None
      end
  | InLiteral rest v =>
      match rest with
      | x :: r =>
          if c =? x then
            match r with
            | [] => deliver v stk
            | _ => Some (InLiteral r v, stk)
            end
          else None
      | [] => None
      end
  | AfterValue | Done _ => step_post m stk c
  end.

(** Errors are absorbing. *)
Fixpoint run (st : option pstate) (text : jstring) : option pstate :=
  match text with
  | [] => st
  | c :: rest =>
      match st with
      | Some s => run (step s c) rest
      | None => None
      end
  end.

(** At the end of the text a value must be complete and nothing open. *)
Definition finish (st : option pstate) : option value :=
  match st with
  | Some (Done v, []) => Some v
  | Some (InNumber acc s, []) =>
      if num_final s then Some (VNum (StringToNumber (rev acc))) else None
  | _ => None
  end.

(** [JSON.parse(text)]: [None] stands for the SyntaxError it throws. *)
Definition JSON_parse (text : jstring) : option value :=
  finish (run (Some (ExpValue, [])) text).

(** ** JSON.stringify *)

Fixpoint JSON_stringify (v : value) : jstring :=
  match v with
  | VNull => u16 "null"
  | VBool true => u16 "true"
  | VBool false => u16 "false"
  | VNum n => NumberToJSON n
  | VStr s => QuoteJSONString s
  | VArr items => 91 :: join [44] (map JSON_stringify items) ++ [93]
  | VObj members =>
      123 :: join [44] (map (fun kv => QuoteJSONString (fst kv) ++ 58 :: JSON_stringify (snd kv))
                            members) ++ [125]
  end.

(** ** zod (version 3)

    A schema is its parser: from the path of the datum and the datum
    ([None] for [undefined]) to a status with the typed output, and the
    issues it adds to the context. *)

Inductive PathElem :=
| PKey (key : string)
| PIndex (i : nat).

Definition Path := list PathElem.

Inductive ZodIssueCode :=
  invalid_type | invalid_literal | invalid_union | too_small | invalid_string.

Local Unset Elimination Schemes.

Inductive ZodIssue :=
| Issue (code : ZodIssueCode) (path : Path) (message : jstring)
        (unionErrors : list (list ZodIssue)).

Local Set Elimination Schemes.

Definition issue_code (i : ZodIssue) : ZodIssueCode := let (c, _, _, _) := i in c.
Definition issue_path (i : ZodIssue) : Path := let (_, p, _, _) := i in p.
Definition issue_message (i : ZodIssue) : jstring := let (_, _, m, _) := i in m.

Inductive ZodParsedType :=
  t_undefined | t_null | t_boolean | t_number | t_string | t_array | t_object.

Definition getParsedType (input : option value) : ZodParsedType :=
  match input with
  | None => t_undefined
  | Some VNull => t_null
  | Some (VBool _) => t_boolean
  | Some (VNum _) => t_number
  | Some (VStr _) => t_string
  | Some (VArr _) => t_array
  | Some (VObj _) => t_object
  end.

Definition typeName (t : ZodParsedType) : string :=
  match t with
  | t_undefined => "undefined" | t_null => "null" | t_boolean => "boolean"
  | t_number => "number" | t_string => "string" | t_array => "array"
  | t_object => "object"
  end.

(** The default error map, for the issue codes that carry no message of
    their own. *)
Definition invalid_type_issue (path : Path) (expected : ZodParsedType)
    (input : option value) : ZodIssue :=
  Issue invalid_type path
    (match getParsedType input with
     | t_undefined => u16 "Required"
     | received => u16 ("Expected " ++ typeName expected ++ ", received " ++ typeName received)
     end) [].

Inductive SyncParseReturn (A : Type) :=
| INVALID
| DIRTY (a : A)
| OK (a : A).
#[global] Arguments INVALID {A}.
#[global] Arguments DIRTY {A} a.
#[global] Arguments OK {A} a.

Definition ParseResult (A : Type) : Type := SyncParseReturn A * list ZodIssue.

Definition ZodType (A : Type) : Type := Path -> option value -> ParseResult A.

(** [ParseStatus.mergeArray] and [ParseStatus.mergeObjectSync]: an aborted
    part aborts the whole, a dirty part makes it dirty. *)
Definition merge {A B C : Type} (f : A -> B -> C)
    (ra : SyncParseReturn A) (rb : SyncParseReturn B) : SyncParseReturn C :=
  match ra, rb with
  | INVALID, _ | _, INVALID => INVALID
  | OK a, OK b => OK (f a b)
  | DIRTY a, DIRTY b | DIRTY a, OK b | OK a, DIRTY b => DIRTY (f a b)
  end.

Definition dirtyIf {A : Type} (issues : list ZodIssue) (a : A) : SyncParseReturn A :=
  match issues with
  | [] => OK a
  | _ => DIRTY a
  end.

(** [z.string()] with its checks, in the order they were added. *)
Inductive ZodStringCheck :=
| check_min (minimum : nat) (message : string)
| check_url (message : string).

Definition ZodString := list ZodStringCheck.

Definition z_string : ZodString := [].
Definition z_min (minimum : nat) (message : string) (s : ZodString) : ZodString :=
  s ++ [check_min minimum message].
Definition z_url (message : string) (s : ZodString) : ZodString :=
  s ++ [check_url message].

Definition runStringCheck (path : Path) (data : jstring) (c : ZodStringCheck)
    : list ZodIssue :=
  match c with
  | check_min minimum message =>
      if (length data <? minimum)%nat then [Issue too_small path (u16 message) []] else []
  | check_url message =>
      if URL_canParse data then [] else [Issue invalid_string path (u16 message) []]
  end.

Definition ZodString_parse (s : ZodString) : ZodType jstring :=
  fun path input =>
    match input with
    | Some (VStr data) =>
        let issues := flat_map (runStringCheck path data) s in
        (dirtyIf issues data, issues)
    | _ => (INVALID, [invalid_type_issue path t_string input])
    end.

Definition z_boolean : ZodType bool :=
  fun path input =>
    match input with
    | Some (VBool b) => (OK b, [])
    | _ => (INVALID, [invalid_type_issue path t_boolean input])
    end.

(** [z.literal(expected)] for a string: the datum must be that very string. *)
Definition isLiteral (expected : jstring) (input : option value) : bool :=
  match input with
  | Some (VStr data) => jstring_eqb data expected
  | _ => false
  end.

Definition z_literal (expected : jstring) : ZodType jstring :=
  fun path input =>
    if isLiteral expected input then (OK expected, [])
    else (INVALID, [Issue invalid_literal path
                      (u16 "Invalid literal value, expected " ++ QuoteJSONString expected) []]).

Definition result_map {A B : Type} (f : A -> B) (r : SyncParseReturn A)
    : SyncParseReturn B :=
  match r with
  | INVALID => INVALID
  | DIRTY a => DIRTY (f a)
  | OK a => OK (f a)
  end.

(** The output type of a schema seen at a wider type, as TypeScript does
    for the members of a union; the parser is unchanged. *)
Definition widen {A B : Type} (f : A -> B) (s : ZodType A) : ZodType B :=
  fun path input => let (r, issues) := s path input in (result_map f r, issues).

(** [.optional()]: [undefined] is accepted as it is. *)
Definition z_optional {A : Type} (inner : ZodType A) : ZodType (option A) :=
  fun path input =>
    match input with
    | None => (OK None, [])
    | Some _ => widen Some inner path input
    end.

Definition nonEmpty (l : list ZodIssue) : bool :=
  match l with [] => false | _ => true end.

(** [a.or(b)] is [z.union([a, b])]: the first option that is valid wins;
    failing that, the first dirty one is returned with its issues; failing
    that, one invalid_union issue carries the issues of the options. *)
Definition z_or {A : Type} (a b : ZodType A) : ZodType A :=
  fun path input =>
    let (ra, ia) := a path input in
    let (rb, ib) := b path input in
    match ra, rb with
    | OK x, _ => (OK x, [])
    | _, OK y => (OK y, [])
    | DIRTY x, _ => (DIRTY x, ia)
    | _, DIRTY y => (DIRTY y, ib)
    | INVALID, INVALID =>
        (INVALID, [Issue invalid_union path (u16 "Invalid input")
                     (List.filter nonEmpty [ia; ib])])
    end.

(** The items of an array, each parsed at its index, merged. *)
Fixpoint parseItems {A : Type} (element : ZodType A) (path : Path) (i : nat)
    (items : list value) : ParseResult (list A) :=
  match items with
  | [] => (OK [], [])
  | item :: rest =>
      let (r, issues) := element (path ++ [PIndex i]) (Some item) in
      let (rs, more) := parseItems element path (S i) rest in
      (merge cons r rs, issues ++ more)
  end.

(** [z.array(element)], with the [minLength] that [.min(n, message)] sets. *)
Definition z_array {A : Type} (element : ZodType A) (minLength : option (nat * string))
    : ZodType (list A) :=
  fun path input =>
    match input with
    | Some (VArr items) =>
        let tooSmall :=
          match minLength with
          | Some (minimum, message) =>
              if (length items <? minimum)%nat
              then [Issue too_small path (u16 message) []] else []
          | None => []
          end in
        let (rs, issues) := parseItems element path 0 items in
        (merge (fun _ l => l) (dirtyIf tooSmall tt) rs, tooSmall ++ issues)
    | _ => (INVALID, [invalid_type_issue path t_array input])
    end.

(** [z.object(shape)]: every key of the shape is parsed, in the order of the
    shape, from the property of that name; unknown keys are stripped. *)
Definition ObjectShape (A : Type) : Type := Path -> list (jstring * value) -> ParseResult A.

Definition shape_of {A : Type} (constructor : A) : ObjectShape A :=
  fun _ _ => (OK constructor, []).

Definition shape_key {A B : Type} (sh : ObjectShape (A -> B)) (key : string)
    (s : ZodType A) : ObjectShape B :=
  fun path members =>
    let (rf, issues) := sh path members in
    let (ra, more) := s (path ++ [PKey key]) (Get (u16 key) members) in
    (merge (fun f a => f a) rf ra, issues ++ more).

Definition z_object {A : Type} (sh : ObjectShape A) : ZodType A :=
  fun path input =>
    match input with
    | Some (VObj members) => sh path members
    | _ => (INVALID, [invalid_type_issue path t_object input])
    end.

Inductive SafeParseReturn (A : Type) :=
| success (data : A)
| failure (error : list ZodIssue).
#[global] Arguments success {A} data.
#[global] Arguments failure {A} error.

Definition safeParse {A : Type} (schema : ZodType A) (data : value) : SafeParseReturn A :=
  match schema [] (Some data) with
  | (OK a, _) => success a
  | (_, issues) => failure issues
  end.

(** ** The schemas of the component *)

Record Model := {
  apiName : jstring;
  uiName : jstring;
  supportsTools : bool;
}.

Record Provider := {
  provider : jstring;
  apiKeyEnvVar : jstring;
  baseUrl : option jstring;
  models : list Model;
}.

Record FormValues := {
  providers : list Provider;
}.

Definition ModelSchema : ZodType Model :=
  z_object
    (shape_key
       (shape_key
          (shape_key (shape_of Build_Model)
             "apiName" (ZodString_parse (z_min 1 "API Name is required." z_string)))
          "uiName" (ZodString_parse (z_min 1 "UI Name is required." z_string)))
       "supportsTools" z_boolean).

Definition ProviderSchema : ZodType Provider :=
  z_object
    (shape_key
       (shape_key
          (shape_key
             (shape_key (shape_of Build_Provider)
                "provider" (ZodString_parse (z_min 1 "Provider name is required." z_string)))
             "apiKeyEnvVar" (ZodString_parse (z_min 1 "API Key Env Var is required." z_string)))
          "baseUrl" (z_or (z_optional (ZodString_parse (z_url "Must be a valid URL." z_string)))
                          (widen Some (z_literal []))))
       "models" (z_array ModelSchema (Some (1%nat, "At least one model is required."%string)))).

Definition ProvidersListSchema : ZodType (list Provider) :=
  z_array ProviderSchema None.

Definition FormSchema : ZodType FormValues :=
  z_object (shape_key (shape_of Build_FormValues) "providers" ProvidersListSchema).

(** ** The values at run time

    The JavaScript object behind a typed value: the keys in the order of
    the object literals of the component, which is the order of the schema
    and so the order in which zod builds its output.  A [baseUrl] that is
    [undefined] is a property that is not there: zod reads both as
    [undefined] and [JSON.stringify] leaves both out. *)

Definition Model_toValue (m : Model) : value :=
  VObj [(u16 "apiName", VStr (apiName m));
        (u16 "uiName", VStr (uiName m));
        (u16 "supportsTools", VBool (supportsTools m))].

Definition Provider_members (p : Provider) : list (jstring * value) :=
  [(u16 "provider", VStr (provider p));
   (u16 "apiKeyEnvVar", VStr (apiKeyEnvVar p))]
  ++ match baseUrl p with
     | Some b => [(u16 "baseUrl", VStr b)]
     | None => []
     end
  ++ [(u16 "models", VArr (map Model_toValue (models p)))].

Definition Provider_toValue (p : Provider) : value := VObj (Provider_members p).

Definition Providers_toValue (ps : list Provider) : value :=
  VArr (map Provider_toValue ps).

Definition FormValues_toValue (v : FormValues) : value :=
  VObj [(u16 "providers", Providers_toValue (providers v))].

(** ** The component

    Its state: the values of the form (the Configuration) and the two
    [useState] cells.  The errors of the form are not kept in the state;
    [handleSubmit] hands them out as the effect [form_errors], in the order
    the resolver found them. *)

Record State := {
  form : FormValues;
  outputJson : jstring;
  importJson : jstring;
}.

Inductive Logged :=
| LogZodError (issues : list ZodIssue)
| LogImportError.

Inductive Effect :=
| toast_success (title description : string)
| toast_error (title description : string)
| console_error (what : Logged)
| form_errors (issues : list ZodIssue).

Definition defaultProvider : Provider :=
  {| provider := u16 "Groq";
     apiKeyEnvVar := u16 "GROQ_API_KEY";
     baseUrl := Some (u16 "https://api.groq.com/openai/v1");
     models := [ {| apiName := u16 "llama3-8b-8192";
                    uiName := u16 "Llama 3 8B";
                    supportsTools := true |} ] |}.

Definition defaultValues : FormValues := {| providers := [defaultProvider] |}.

Definition initialState : State :=
  {| form := defaultValues; outputJson := []; importJson := [] |}.

Definition setOutputJson (s : jstring) (st : State) : State :=
  {| form := form st; outputJson := s; importJson := importJson st |}.

Definition setImportJson (s : jstring) (st : State) : State :=
  {| form := form st; outputJson := outputJson st; importJson := s |}.

(** [form.reset(values)] *)
Definition reset (v : FormValues) (st : State) : State :=
  {| form := v; outputJson := outputJson st; importJson := importJson st |}.

Definition setProviders (ps : list Provider) (st : State) : State :=
  reset {| providers := ps |} st.

(** [useFieldArray]: [append] adds at the end, [remove] takes the entry at
    the index out (and nothing when there is none). *)
Definition append {A : Type} (l : list A) (x : A) : list A := l ++ [x].
Definition remove {A : Type} (l : list A) (index : nat) : list A := delete index l.

Definition emptyModel : Model :=
  {| apiName := []; uiName := []; supportsTools := false |}.

Definition emptyProvider : Provider :=
  {| provider := []; apiKeyEnvVar := []; baseUrl := Some []; models := [emptyModel] |}.

Definition appendProvider (st : State) : State :=
  setProviders (append (providers (form st)) emptyProvider) st.

Definition removeProvider (providerIndex : nat) (st : State) : State :=
  setProviders (remove (providers (form st)) providerIndex) st.

Definition withModels (f : list Model -> list Model) (p : Provider) : Provider :=
  {| provider := provider p; apiKeyEnvVar := apiKeyEnvVar p;
     baseUrl := baseUrl p; models := f (models p) |}.

(** The field array of name [providers.<providerIndex>.models]. *)
Definition appendModel (providerIndex : nat) (st : State) : State :=
  setProviders
    (alter (withModels (fun ms => append ms emptyModel)) providerIndex (providers (form st))) st.

Definition removeModel (providerIndex modelIndex : nat) (st : State) : State :=
  setProviders
    (alter (withModels (fun ms => remove ms modelIndex)) providerIndex (providers (form st))) st.

Definition onSubmit (data : FormValues) (st : State) : State * list Effect :=
  let oneLineJson := JSON_stringify (Providers_toValue (providers data)) in
  (setOutputJson oneLineJson st,
   [toast_success "JSON Generated!" "The one-line JSON has been created below."]).

(** [form.handleSubmit(onSubmit)] with [zodResolver(FormSchema)]: the
    resolver parses the values of the form; [onSubmit] is called with what
    it returns, and only when it reports no error. *)
Definition handleSubmit (st : State) : State * list Effect :=
  match safeParse FormSchema (FormValues_toValue (form st)) with
  | success data =>
      let (st', effects) := onSubmit data st in (st', form_errors [] :: effects)
  | failure issues => (st, [form_errors issues])
  end.

(** [handleImport], with the [JSON.parse] it calls as an argument. *)
Definition handleImportWith (parse : jstring -> option value) (st : State)
    : State * list Effect :=
  if negb (truthy (trim (importJson st))) then
    (st, [toast_error "Import field is empty." "Please paste your JSON array to import."])
  else
    match parse (importJson st) with
    | Some parsed =>
        match safeParse ProvidersListSchema parsed with
        | failure issues =>
            (st, [console_error (LogZodError issues);
                  toast_error "Invalid JSON structure."
                    "The provided JSON does not match the required schema. Check console for details."])
        | success data =>
            (reset {| providers := data |} st,
             [toast_success "Import Successful!" "The form has been updated with your data."])
        end
    | None =>
        (st, [toast_error "Invalid JSON format."
                "Could not parse the JSON. Please check for syntax errors.";
              console_error LogImportError])
    end.

Definition handleImport (st : State) : State * list Effect :=
  handleImportWith JSON_parse st.

(** ** Auxiliary definitions for the statements *)

(** Induction on values, with the hypothesis for every item of an array and
    every member of an object. *)
Definition value_ind' (P : value -> Prop)
    (HNull : P VNull) (HBool : forall b, P (VBool b)) (HNum : forall n, P (VNum n))
    (HStr : forall s, P (VStr s))
    (HArr : forall items, Forall P items -> P (VArr items))
    (HObj : forall members, Forall (fun kv => P (snd kv)) members -> P (VObj members))
    : forall v, P v :=
  fix go (v : value) : P v :=
    match v with
    | VNull => HNull
    | VBool b => HBool b
    | VNum n => HNum n
    | VStr s => HStr s
    | VArr items =>
        HArr items
          ((fix all (l : list value) : Forall P l :=
              match l with
              | [] => Forall_nil P
              | x :: r => Forall_cons P x r (go x) (all r)
              end) items)
    | VObj members =>
        HObj members
          ((fix all (l : list (jstring * value)) : Forall (fun kv => P (snd kv)) l :=
              match l with
              | [] => Forall_nil _
              | kv :: r => Forall_cons _ kv r (go (snd kv)) (all r)
              end) members)
    end.

(** Values that contain no number. *)
Fixpoint number_free (v : value) : bool :=
  match v with
  | VNum _ => false
  | VArr items => forallb number_free items
  | VObj members => forallb (fun kv => number_free (snd kv)) members
  | _ => true
  end.

(** A state in which the parser awaits a value. *)
Definition awaits_value (m : mode) : Prop := m = ExpValue \/ m = ExpValueOrEnd.

(** A state in which the parser awaits a member name. *)
Definition awaits_key (m : mode) : Prop := m = ExpKey \/ m = ExpKeyOrEnd.

(** The parser, awaiting a value, reads the text of [v] and delivers [v]. *)
Definition reads_back (v : value) : Prop :=
  forall m stk rest,
    awaits_value m ->
    run (Some (m, stk)) (JSON_stringify v ++ rest) = run (deliver v stk) rest.

(** *** What the schemas report on a typed value

    The issues of each schema on the run-time form of a typed value, written
    out field by field; [ModelSchema_toValue] and the lemmas after it show
    that the schemas compute exactly these. *)

Definition tooSmall (path : Path) (data : jstring) (message : string) : list ZodIssue :=
  if (length data <? 1)%nat then [Issue too_small path (u16 message) []] else [].

Definition Model_issues (path : Path) (m : Model) : list ZodIssue :=
  tooSmall (path ++ [PKey "apiName"]) (apiName m) "API Name is required."
  ++ tooSmall (path ++ [PKey "uiName"]) (uiName m) "UI Name is required.".

Definition baseUrl_issues (path : Path) (b : option jstring) : list ZodIssue :=
  match b with
  | Some (c :: s) =>
      if URL_canParse (c :: s) then []
      else [Issue invalid_string path (u16 "Must be a valid URL.") []]
  | _ => []
  end.

Fixpoint items_issues {A : Type} (issues_of : Path -> A -> list ZodIssue)
    (path : Path) (i : nat) (xs : list A) : list ZodIssue :=
  match xs with
  | [] => []
  | x :: rest => issues_of (path ++ [PIndex i]) x ++ items_issues issues_of path (S i) rest
  end.

Definition noModel_issues (path : Path) (ms : list Model) : list ZodIssue :=
  if (length ms <? 1)%nat
  then [Issue too_small path (u16 "At least one model is required.") []] else [].

Definition Provider_issues (path : Path) (p : Provider) : list ZodIssue :=
  tooSmall (path ++ [PKey "provider"]) (provider p) "Provider name is required."
  ++ tooSmall (path ++ [PKey "apiKeyEnvVar"]) (apiKeyEnvVar p) "API Key Env Var is required."
  ++ baseUrl_issues (path ++ [PKey "baseUrl"]) (baseUrl p)
  ++ noModel_issues (path ++ [PKey "models"]) (models p)
  ++ items_issues Model_issues (path ++ [PKey "models"]) 0 (models p).

Definition Providers_issues (path : Path) (ps : list Provider) : list ZodIssue :=
  items_issues Provider_issues path 0 ps.

(** The same verdicts, as booleans. *)
Definition Model_ok (m : Model) : bool :=
  negb (length (apiName m) <? 1)%nat && negb (length (uiName m) <? 1)%nat.

Definition baseUrl_ok (b : option jstring) : bool :=
  match b with
  | Some (c :: s) => URL_canParse (c :: s)
  | _ => true
  end.

Definition Provider_ok (p : Provider) : bool :=
  negb (length (provider p) <? 1)%nat && negb (length (apiKeyEnvVar p) <? 1)%nat
  && baseUrl_ok (baseUrl p)
  && negb (length (models p) <? 1)%nat && forallb Model_ok (models p).

(** A provider that the provider schema accepts. *)
Definition accepted (p : Provider) : Prop :=
  exists data, safeParse ProviderSchema (Provider_toValue p) = success data.

(** A schema that never rejects a datum without an issue to show for it. *)
Definition reports {A : Type} (s : ZodType A) : Prop :=
  forall path input,
    match fst (s path input) with
    | OK _ => True
    | _ => snd (s path input) <> []
    end.

Definition shape_reports {A : Type} (sh : ObjectShape A) : Prop :=
  forall path members,
    match fst (sh path members) with
    | OK _ => True
    | _ => snd (sh path members) <> []
    end.

(** *** The three ways an import can fail, as the user sees them *)

Definition EmptyInputError : list Effect :=
  [toast_error "Import field is empty." "Please paste your JSON array to import."].

Definition ParseError : list Effect :=
  [toast_error "Invalid JSON format."
     "Could not parse the JSON. Please check for syntax errors.";
   console_error LogImportError].

Definition ValidationError (issues : list ZodIssue) : list Effect :=
  [console_error (LogZodError issues);
   toast_error "Invalid JSON structure."
     "The provided JSON does not match the required schema. Check console for details."].

Definition ImportSuccessful : list Effect :=
  [toast_success "Import Successful!" "The form has been updated with your data."].

Definition withBaseUrl (b : option jstring) (p : Provider) : Provider :=
  {| provider := provider p; apiKeyEnvVar := apiKeyEnvVar p;
     baseUrl := b; models := models p |}.

(** *** The one-line text, as the specification words it

    Keys in the order provider, apiKeyEnvVar, baseUrl, models for a
    provider and apiName, uiName, supportsTools for a model; no white space
    between tokens. *)

Definition oneLine_model (m : Model) : jstring :=
  u16q "{'apiName':" ++ QuoteJSONString (apiName m)
  ++ u16q ",'uiName':" ++ QuoteJSONString (uiName m)
  ++ u16q ",'supportsTools':" ++ u16 (if supportsTools m then "true" else "false")
  ++ u16 "}".

Definition oneLine_provider (p : Provider) : jstring :=
  u16q "{'provider':" ++ QuoteJSONString (provider p)
  ++ u16q ",'apiKeyEnvVar':" ++ QuoteJSONString (apiKeyEnvVar p)
  ++ match baseUrl p with
     | Some b => u16q ",'baseUrl':" ++ QuoteJSONString b
     | None => []
     end
  ++ u16q ",'models':[" ++ join [44] (map oneLine_model (models p)) ++ u16 "]}".

Definition oneLine (ps : list Provider) : jstring :=
  u16 "[" ++ join [44] (map oneLine_provider ps) ++ u16 "]".

(** No control character: neither a line feed nor a carriage return. *)
Definition singleLine (s : jstring) : bool := forallb (fun c => 32 <=? c) s.

(** The example of the specification. *)
Definition groqJson : jstring :=
  u16q "[{'provider':'Groq','apiKeyEnvVar':'GROQ_API_KEY','baseUrl':'https://api.groq.com/openai/v1','models':[{'apiName':'llama3-8b-8192','uiName':'Llama 3 8B','supportsTools':true}]}]".

(** *** States for the examples *)

(** Nothing pasted in the import field. *)
Definition nothingPasted : State := setImportJson [] initialState.

(** Text that is not JSON in the import field. *)
Definition notJsonPasted : State := setImportJson (u16 "not json") initialState.

(** JSON that the schema rejects: a provider with an empty name and no model. *)
Definition invalidPasted : State :=
  setImportJson (u16q "[{'provider':'','apiKeyEnvVar':'X','models':[]}]") initialState.

(** ** Further definitions

    *** What the schemas accept, read off their fields *)

Definition Model_accepts (input : option value) (m : Model) : Prop :=
  exists members,
    input = Some (VObj members)
    /\ Get (u16 "apiName") members = Some (VStr (apiName m)) /\ apiName m <> []
    /\ Get (u16 "uiName") members = Some (VStr (uiName m)) /\ uiName m <> []
    /\ Get (u16 "supportsTools") members = Some (VBool (supportsTools m)).

Definition baseUrl_accepts (input : option value) (b : option jstring) : Prop :=
  (input = None /\ b = None)
  \/ exists s, input = Some (VStr s) /\ b = Some s /\ (s = [] \/ URL_canParse s = true).

Definition Provider_accepts (input : option value) (p : Provider) : Prop :=
  exists members,
    input = Some (VObj members)
    /\ Get (u16 "provider") members = Some (VStr (provider p)) /\ provider p <> []
    /\ Get (u16 "apiKeyEnvVar") members = Some (VStr (apiKeyEnvVar p))
    /\ apiKeyEnvVar p <> []
    /\ baseUrl_accepts (Get (u16 "baseUrl") members) (baseUrl p)
    /\ exists items,
         Get (u16 "models") members = Some (VArr items)
         /\ items <> []
         /\ Forall2 (fun item m => Model_accepts (Some item) m) items (models p).

(** The keys that [ProviderSchema] reads. *)
Definition providerKeys : list jstring :=
  [u16 "provider"; u16 "apiKeyEnvVar"; u16 "baseUrl"; u16 "models"].

(** The keys that [ModelSchema] reads. *)
Definition modelKeys : list jstring :=
  [u16 "apiName"; u16 "uiName"; u16 "supportsTools"].

(** A literal that is being read has no white space left to read. *)
Definition literal_ok (st : pstate) : bool :=
  match fst st with
  | InLiteral rest _ => forallb (fun c => negb (isJSONWhiteSpace c)) rest
  | _ => true
  end.

(** *** The fields and the events of the page

    An input bound to a field writes what was typed at the path of the
    field; the check box writes its new state.  The page renders fields and
    buttons for the entries that exist, so an index it sends is in range;
    on any other index the operations below change nothing. *)

Definition editProvider (f : Provider -> Provider) (providerIndex : nat) (st : State)
    : State :=
  setProviders (alter f providerIndex (providers (form st))) st.

Definition editModel (f : Model -> Model) (providerIndex modelIndex : nat) (st : State)
    : State :=
  editProvider (withModels (alter f modelIndex)) providerIndex st.

Definition withProvider (s : jstring) (p : Provider) : Provider :=
  {| provider := s; apiKeyEnvVar := apiKeyEnvVar p; baseUrl := baseUrl p;
     models := models p |}.

Definition withApiKeyEnvVar (s : jstring) (p : Provider) : Provider :=
  {| provider := provider p; apiKeyEnvVar := s; baseUrl := baseUrl p;
     models := models p |}.

Definition withApiName (s : jstring) (m : Model) : Model :=
  {| apiName := s; uiName := uiName m; supportsTools := supportsTools m |}.

Definition withUiName (s : jstring) (m : Model) : Model :=
  {| apiName := apiName m; uiName := s; supportsTools := supportsTools m |}.

Definition withSupportsTools (b : bool) (m : Model) : Model :=
  {| apiName := apiName m; uiName := uiName m; supportsTools := b |}.

Inductive Event :=
| ImportTextChanged (text : jstring)
| ImportClicked
| FormSubmitted
| AddProviderClicked
| RemoveProviderClicked (providerIndex : nat)
| AddModelClicked (providerIndex : nat)
| RemoveModelClicked (providerIndex modelIndex : nat)
| ProviderChanged (providerIndex : nat) (text : jstring)
| ApiKeyEnvVarChanged (providerIndex : nat) (text : jstring)
| BaseUrlChanged (providerIndex : nat) (text : jstring)
| ApiNameChanged (providerIndex modelIndex : nat) (text : jstring)
| UiNameChanged (providerIndex modelIndex : nat) (text : jstring)
| SupportsToolsChanged (providerIndex modelIndex : nat) (checked : bool).

(** The state after an event. *)
Definition dispatch (st : State) (e : Event) : State :=
  match e with
  | ImportTextChanged text => setImportJson text st
  | ImportClicked => fst (handleImport st)
  | FormSubmitted => fst (handleSubmit st)
  | AddProviderClicked => appendProvider st
  | RemoveProviderClicked i => removeProvider i st
  | AddModelClicked i => appendModel i st
  | RemoveModelClicked i j => removeModel i j st
  | ProviderChanged i text => editProvider (withProvider text) i st
  | ApiKeyEnvVarChanged i text => editProvider (withApiKeyEnvVar text) i st
  | BaseUrlChanged i text => editProvider (withBaseUrl (Some text)) i st
  | ApiNameChanged i j text => editModel (withApiName text) i j st
  | UiNameChanged i j text => editModel (withUiName text) i j st
  | SupportsToolsChanged i j checked => editModel (withSupportsTools checked) i j st
  end.

Definition dispatchAll (st : State) (events : list Event) : State :=
  fold_left dispatch events st.

(** The output card is rendered when the output text is not empty. *)
Definition outputShown (st : State) : bool := truthy (outputJson st).

(** A text that [onSubmit] can have written: the one-line text of
    providers that are all in order. *)
Definition exported (text : jstring) : Prop :=
  exists ps, forallb Provider_ok ps = true /\ text = oneLine ps.

(** A schema whose valid results come with no issue. *)
Definition clean {A : Type} (s : ZodType A) : Prop :=
  forall path input a, fst (s path input) = OK a -> snd (s path input) = [].

Definition shape_clean {A : Type} (sh : ObjectShape A) : Prop :=
  forall path members a, fst (sh path members) = OK a -> snd (sh path members) = [].

(** A schema whose issues lie at or below the path of the datum. *)
Definition under {A : Type} (s : ZodType A) : Prop :=
  forall path input issue,
    List.In issue (snd (s path input)) -> exists rest, issue_path issue = path ++ rest.

Definition shape_under {A : Type} (sh : ObjectShape A) : Prop :=
  forall path members issue,
    List.In issue (snd (sh path members)) -> exists rest, issue_path issue = path ++ rest.

Definition isFormSubmitted (e : Event) : bool :=
  match e with FormSubmitted => true | _ => false end.

Definition isImportTextChanged (e : Event) : bool :=
  match e with ImportTextChanged _ => true | _ => false end.

(** The example of the specification in the import field. *)
Definition groqPasted : State := setImportJson groqJson initialState.

(** The example after a no-break space. *)
Definition nbspPasted : State := setImportJson (160 :: groqJson) initialState.

(** * Properties *)

(** ** The model on small inputs *)

Example parse_nested :
  JSON_parse (u16q " {'a': [true, null, -1.5e3], 'b': {}} ")
  = Some (VObj [(u16 "a", VArr [VBool true; VNull; VNum (StringToNumber (u16 "-1.5e3"))]);
                (u16 "b", VObj [])]).
Proof. reflexivity. Qed.

Example parse_escapes :
  JSON_parse (u16q "'a\n\u00E9\/'") = Some (VStr [97; 10; 233; 47]).
Proof. reflexivity. Qed.

Example parse_rejects :
  map JSON_parse [u16 "[1,]"; u16 "01"; u16q "{'a':1,}"; u16 "tru"; u16 "1 2";
                  u16 "not json"; u16 ""; u16q "'open"; u16q "{'a' 1}"]
  = [None; None; None; None; None; None; None; None; None].
Proof. reflexivity. Qed.

Example parse_repeated_name :
  option_map (fun v => match v with VObj ms => Get (u16 "a") ms | _ => None end)
             (JSON_parse (u16q "{'a':true,'b':null,'a':false}"))
  = Some (Some (VBool false)).
Proof. reflexivity. Qed.

Example quote_surrogates :
  QuoteJSONString [55357; 56832; 55357; 10; 34]
  = 34 :: [55357; 56832] ++ u16 "\ud83d\n\" ++ [34; 34].
Proof. reflexivity. Qed.

Example trim_blank : trim [32; 9; 10; 160; 8232; 65279] = [].
Proof. reflexivity. Qed.

Example trim_inner : trim (u16 "  a b  ") = u16 "a b".
Proof. reflexivity. Qed.

Example scheme_found :
  parseScheme (u16 " HTTPS://api.groq.com/openai/v1")
  = Some (u16 "https", u16 "//api.groq.com/openai/v1").
Proof. reflexivity. Qed.

Example scheme_missing : parseScheme (u16 "not-a-url") = None.
Proof. reflexivity. Qed.

(** The import example of the specification with an empty provider name and
    no model: two issues, in the order of the schema. *)
Example import_two_issues :
  handleImport invalidPasted
  = (invalidPasted,
     ValidationError
       [Issue too_small [PIndex 0; PKey "provider"] (u16 "Provider name is required.") [];
        Issue too_small [PIndex 0; PKey "models"]
          (u16 "At least one model is required.") []]).
Proof. reflexivity. Qed.

(** A number where a string is expected is neither a URL nor the empty
    literal: the union reports both refusals. *)
Example import_baseUrl_number :
  option_map (safeParse ProvidersListSchema)
    (JSON_parse (u16q "[{'provider':'a','apiKeyEnvVar':'X','baseUrl':5,'models':[{'apiName':'m','uiName':'M','supportsTools':false}]}]"))
  = Some (failure
       [Issue invalid_union [PIndex 0; PKey "baseUrl"] (u16 "Invalid input")
          [[Issue invalid_type [PIndex 0; PKey "baseUrl"]
              (u16 "Expected string, received number") []];
           [Issue invalid_literal [PIndex 0; PKey "baseUrl"]
              (u16 "Invalid literal value, expected " ++ [34; 34]) []]]]).
Proof. reflexivity. Qed.

(** Unknown keys are stripped, and a missing [baseUrl] stays missing. *)
Example import_strips_unknown_keys :
  option_map (safeParse ProvidersListSchema)
    (JSON_parse (u16q "[{'x':1,'provider':'a','apiKeyEnvVar':'X','models':[{'apiName':'m','uiName':'M','supportsTools':false,'y':[]}]}]"))
  = Some (success
       [ {| provider := u16 "a"; apiKeyEnvVar := u16 "X"; baseUrl := None;
            models := [ {| apiName := u16 "m"; uiName := u16 "M";
                           supportsTools := false |} ] |} ]).
Proof. reflexivity. Qed.

(** ** The parser reads back what QuoteJSONString writes *)

Lemma run_None (text : jstring) : run None text = None.
Proof. destruct text; reflexivity. Qed.

Lemma run_app (st : option pstate) (a b : jstring) :
  run st (a ++ b) = run (run st a) b.
Proof.
  revert st. induction a as [|c a IH]; intros st; [reflexivity|].
  destruct st as [s|]; simpl; [apply IH|]. now rewrite run_None.
Qed.

Lemma hexValue_hexDigit (d : N) : d < 16 -> hexValue (hexDigit d) = Some d.
Proof.
  intros H.
  assert (Hd : List.In d [0; 1; 2; 3; 4; 5; 6; 7; 8; 9; 10; 11; 12; 13; 14; 15])
    by (simpl; lia).
  simpl in Hd. intuition (subst; reflexivity).
Qed.

Lemma hex_digits_value (c : N) :
  c < 65536 ->
  (((0 * 16 + c / 4096 mod 16) * 16 + c / 256 mod 16) * 16 + c / 16 mod 16) * 16
    + c mod 16 = c.
Proof.
  intros H.
  replace (c / 4096) with (c / 16 / 16 / 16) by (rewrite !N.Div0.div_div; reflexivity).
  replace (c / 256) with (c / 16 / 16) by (rewrite !N.Div0.div_div; reflexivity).
  pose proof (N.div_mod c 16). pose proof (N.div_mod (c / 16) 16).
  pose proof (N.div_mod (c / 16 / 16) 16).
  assert (c / 16 / 16 / 16 < 16).
  { rewrite !N.Div0.div_div. apply N.Div0.div_lt_upper_bound. simpl. lia. }
  rewrite (N.mod_small (c / 16 / 16 / 16) 16) by assumption.
  lia.
Qed.

Lemma run_UnicodeEscape (c : N) iskey acc stk rest :
  c < 65536 ->
  run (Some (InString iskey acc SNormal, stk)) (UnicodeEscape c ++ rest)
  = run (Some (InString iskey (c :: acc) SNormal, stk)) rest.
Proof.
  intros H. unfold UnicodeEscape.
  cbn [app run step step_string N.eqb Pos.eqb unescape].
  do 4 (rewrite hexValue_hexDigit by (apply N.mod_lt; discriminate);
        cbn [Nat.eqb run step step_string]).
  now rewrite (hex_digits_value c H).
Qed.

Lemma escapeChar_Some (c e : N) :
  escapeChar c = Some e ->
  List.In (c, e) [(8, 98); (9, 116); (10, 110); (12, 102); (13, 114); (34, 34); (92, 92)].
Proof.
  unfold escapeChar.
  repeat match goal with
         | |- context [N.eqb c ?k] =>
             destruct (N.eqb_spec c k) as [->|_];
             [intros [= <-]; simpl; repeat (first [left; reflexivity | right])|]
         end.
  discriminate.
Qed.

Lemma escapeChar_None (c : N) :
  escapeChar c = None -> c <> 34 /\ c <> 92.
Proof.
  unfold escapeChar.
  repeat match goal with
         | |- context [N.eqb c ?k] =>
             destruct (N.eqb_spec c k) as [->|?]; [discriminate|]
         end.
  auto.
Qed.

Lemma step_raw (c : N) iskey acc stk :
  c <> 34 -> c <> 92 -> 32 <= c ->
  step (InString iskey acc SNormal, stk) c = Some (InString iskey (c :: acc) SNormal, stk).
Proof.
  intros H1 H2 H3. cbn [step step_string].
  destruct (N.eqb_spec c 34); [contradiction|].
  destruct (N.eqb_spec c 92); [contradiction|].
  destruct (N.ltb_spec c 32); [lia|reflexivity].
Qed.

Lemma run_QuoteBody_bounded (n : nat) :
  forall s, (length s <= n)%nat ->
  forall iskey acc stk rest,
    run (Some (InString iskey acc SNormal, stk)) (QuoteBody s ++ rest)
    = run (Some (InString iskey (rev s ++ acc) SNormal, stk)) rest.
Proof.
  induction n as [|n IH]; intros s Hlen iskey acc stk rest.
  { destruct s; [reflexivity|simpl in Hlen; lia]. }
  destruct s as [|c s]; [reflexivity|]. simpl in Hlen.
  assert (Hs : (length s <= n)%nat) by lia.
  cbn [rev]. rewrite <- app_assoc. cbn [app QuoteBody].
  destruct (escapeChar c) as [e|] eqn:E.
  { apply escapeChar_Some in E. simpl in E.
    cbn [app].
    repeat (destruct E as [[= <- <-]|E]; [apply (IH s Hs)|]).
    contradiction. }
  apply escapeChar_None in E. destruct E as [E1 E2].
  destruct (N.ltb_spec c 32) as [Hlt|Hge].
  { rewrite <- app_assoc, run_UnicodeEscape by lia. apply (IH s Hs). }
  destruct (isLeadingSurrogate c) eqn:Hlead.
  { unfold isLeadingSurrogate in Hlead.
    apply andb_true_iff in Hlead. destruct Hlead as [Hl1 Hl2].
    apply N.leb_le in Hl1, Hl2.
    destruct s as [|d s'].
    - rewrite run_UnicodeEscape by lia. reflexivity.
    - destruct (isTrailingSurrogate d) eqn:Htrail.
      + unfold isTrailingSurrogate in Htrail.
        apply andb_true_iff in Htrail. destruct Htrail as [Ht1 Ht2].
        apply N.leb_le in Ht1, Ht2.
        cbn [app run]. rewrite step_raw by lia. cbn [run].
        rewrite step_raw by lia.
        simpl in Hs. rewrite (IH s') by lia.
        cbn [rev]. now rewrite <- !app_assoc.
      + rewrite <- app_assoc, run_UnicodeEscape by lia. apply (IH _ Hs). }
  destruct (isTrailingSurrogate c) eqn:Htrail.
  { unfold isTrailingSurrogate in Htrail.
    apply andb_true_iff in Htrail. destruct Htrail as [Ht1 Ht2].
    apply N.leb_le in Ht1, Ht2.
    rewrite <- app_assoc, run_UnicodeEscape by lia. apply (IH s Hs). }
  cbn [app run]. rewrite step_raw by assumption. apply (IH s Hs).
Qed.

Lemma run_QuoteBody (s : jstring) iskey acc stk rest :
  run (Some (InString iskey acc SNormal, stk)) (QuoteBody s ++ rest)
  = run (Some (InString iskey (rev s ++ acc) SNormal, stk)) rest.
Proof. apply (run_QuoteBody_bounded (length s)). lia. Qed.

Lemma run_string_value (s : jstring) m stk rest :
  awaits_value m ->
  run (Some (m, stk)) (QuoteJSONString s ++ rest) = run (deliver (VStr s) stk) rest.
Proof.
  intros Hm. unfold QuoteJSONString.
  assert (Hstep : step (m, stk) 34 = Some (InString false [] SNormal, stk))
    by (destruct Hm as [-> | ->]; reflexivity).
  cbn [app run]. rewrite Hstep, <- app_assoc, run_QuoteBody.
  cbn [app run step step_string N.eqb Pos.eqb].
  now rewrite app_nil_r, rev_involutive.
Qed.

Lemma run_string_key (s : jstring) m stk rest :
  awaits_key m ->
  run (Some (m, stk)) (QuoteJSONString s ++ 58 :: rest)
  = run (Some (ExpValue, FKey s :: stk)) rest.
Proof.
  intros Hm. unfold QuoteJSONString.
  assert (Hstep : step (m, stk) 34 = Some (InString true [] SNormal, stk))
    by (destruct Hm as [-> | ->]; reflexivity).
  cbn [app run]. rewrite Hstep, <- app_assoc, run_QuoteBody.
  cbn [app run step step_string N.eqb Pos.eqb isJSONWhiteSpace orb].
  now rewrite app_nil_r, rev_involutive.
Qed.

(** ** The parser reads back what JSON.stringify writes *)

Lemma run_items (items : list value) :
  Forall reads_back items ->
  forall v acc m stk rest,
    reads_back v -> awaits_value m ->
    run (Some (m, FArr acc :: stk))
        (join [44] (map JSON_stringify (v :: items)) ++ 93 :: rest)
    = run (deliver (VArr (rev acc ++ v :: items)) stk) rest.
Proof.
  induction 1 as [|w items Hw _ IH]; intros v acc m stk rest Hv Hm.
  - cbn [map join]. rewrite (Hv m _ _ Hm). reflexivity.
  - change (join [44] (map JSON_stringify (v :: w :: items)))
      with (JSON_stringify v ++ [44] ++ join [44] (map JSON_stringify (w :: items))).
    rewrite <- !app_assoc, (Hv m _ _ Hm). cbn [deliver app run step step_post].
    cbn [isJSONWhiteSpace N.eqb Pos.eqb orb].
    rewrite (IH w (v :: acc) ExpValue stk rest Hw) by (now left).
    cbn [rev]. now rewrite <- app_assoc.
Qed.

Lemma run_members (members : list (jstring * value)) :
  Forall (fun kv => reads_back (snd kv)) members ->
  forall kv acc m stk rest,
    reads_back (snd kv) -> awaits_key m ->
    run (Some (m, FObj acc :: stk))
        (join [44] (map (fun kv => QuoteJSONString (fst kv) ++ 58 :: JSON_stringify (snd kv))
                        (kv :: members)) ++ 125 :: rest)
    = run (deliver (VObj (rev acc ++ kv :: members)) stk) rest.
Proof.
  induction 1 as [|kw members Hw _ IH]; intros [k v] acc m stk rest Hv Hm;
    cbn [fst snd] in Hv.
  - cbn [map join fst snd]. rewrite <- !app_assoc. cbn [app].
    rewrite (run_string_key k m _ _ Hm), (Hv ExpValue) by (now left).
    reflexivity.
  - set (f := fun kv : jstring * value =>
                QuoteJSONString (fst kv) ++ 58 :: JSON_stringify (snd kv)).
    change (join [44] (map f ((k, v) :: kw :: members)))
      with ((QuoteJSONString k ++ 58 :: JSON_stringify v) ++ [44]
            ++ join [44] (map f (kw :: members))).
    rewrite <- !app_assoc. cbn [app].
    rewrite (run_string_key k m _ _ Hm), (Hv ExpValue) by (now left).
    cbn [deliver app run step step_post].
    cbn [isJSONWhiteSpace N.eqb Pos.eqb orb]. subst f.
    rewrite (IH kw ((k, v) :: acc) ExpKey stk rest Hw) by (now left).
    cbn [rev]. now rewrite <- app_assoc.
Qed.

Lemma JSON_stringify_reads_back (v : value) :
  number_free v = true -> reads_back v.
Proof.
  induction v as [| b | n | s | items IH | members IH] using value_ind';
    intros Hfree m stk rest Hm.
  - destruct Hm as [-> | ->]; reflexivity.
  - destruct b, Hm as [-> | ->]; reflexivity.
  - discriminate.
  - now apply run_string_value.
  - cbn [JSON_stringify number_free] in *.
    assert (Hopen : step (m, stk) 91 = Some (ExpValueOrEnd, FArr [] :: stk))
      by (destruct Hm as [-> | ->]; reflexivity).
    cbn [app run]. rewrite Hopen, <- app_assoc.
    destruct items as [|v items]; [reflexivity|].
    cbn [forallb] in Hfree. apply andb_true_iff in Hfree. destruct Hfree as [Hv Hitems].
    inversion IH as [|? ? IHv IHitems]; subst.
    apply (run_items items).
    + rewrite Forall_forall in IHitems |- *. intros x Hx. apply IHitems; [exact Hx|].
      rewrite forallb_forall in Hitems. apply Hitems.
      exact Hx.
    + now apply IHv.
    + now right.
  - cbn [JSON_stringify number_free] in *.
    assert (Hopen : step (m, stk) 123 = Some (ExpKeyOrEnd, FObj [] :: stk))
      by (destruct Hm as [-> | ->]; reflexivity).
    cbn [app run]. rewrite Hopen, <- app_assoc.
    destruct members as [|kv members]; [reflexivity|].
    cbn [forallb] in Hfree. apply andb_true_iff in Hfree. destruct Hfree as [Hv Hmembers].
    inversion IH as [|? ? IHv IHmembers]; subst.
    apply (run_members members).
    + rewrite Forall_forall in IHmembers |- *. intros x Hx. apply IHmembers; [exact Hx|].
      rewrite forallb_forall in Hmembers. apply Hmembers.
      exact Hx.
    + now apply IHv.
    + now right.
Qed.

Lemma JSON_parse_stringify (v : value) :
  number_free v = true -> JSON_parse (JSON_stringify v) = Some v.
Proof.
  intros Hfree. unfold JSON_parse.
  rewrite <- (app_nil_r (JSON_stringify v)).
  rewrite (JSON_stringify_reads_back v Hfree ExpValue [] []) by (now left).
  reflexivity.
Qed.

(** ** The schemas on typed values *)

Lemma merge_dirtyIf {A B C : Type} (f : A -> B -> C) i1 i2 a b :
  merge f (dirtyIf i1 a) (dirtyIf i2 b) = dirtyIf (i1 ++ i2) (f a b).
Proof. destruct i1, i2; reflexivity. Qed.

Lemma dirtyIf_OK {A : Type} (issues : list ZodIssue) (a b : A) :
  dirtyIf issues a = OK b -> issues = [] /\ a = b.
Proof. destruct issues; [intros [= ->]; auto|discriminate]. Qed.

Lemma parse_required (message : string) (path : Path) (s : jstring) :
  ZodString_parse (z_min 1 message z_string) path (Some (VStr s))
  = (dirtyIf (tooSmall path s message) s, tooSmall path s message).
Proof.
  unfold ZodString_parse, z_min, z_string, tooSmall. cbn [app flat_map runStringCheck].
  now rewrite app_nil_r.
Qed.

Lemma parse_baseUrl (path : Path) (b : option jstring) :
  z_or (z_optional (ZodString_parse (z_url "Must be a valid URL." z_string)))
       (widen Some (z_literal [])) path (option_map VStr b)
  = (dirtyIf (baseUrl_issues path b) b, baseUrl_issues path b).
Proof.
  destruct b as [[|c s]|]; [reflexivity| |reflexivity].
  unfold z_or, z_optional, widen, ZodString_parse, z_literal, isLiteral, z_url, z_string.
  cbn [option_map app flat_map runStringCheck jstring_eqb baseUrl_issues].
  destruct (URL_canParse (c :: s)); reflexivity.
Qed.

Lemma ModelSchema_toValue (path : Path) (m : Model) :
  ModelSchema path (Some (Model_toValue m))
  = (dirtyIf (Model_issues path m) m, Model_issues path m).
Proof.
  destruct m as [a u t]. unfold ModelSchema, z_object, shape_key, shape_of, Model_toValue.
  change (Get (u16 "apiName") _) with (Some (VStr a)).
  change (Get (u16 "uiName") _) with (Some (VStr u)).
  change (Get (u16 "supportsTools") _) with (Some (VBool t)).
  rewrite !parse_required. cbn [z_boolean].
  change (OK Build_Model) with (dirtyIf [] Build_Model).
  change (@OK bool t) with (dirtyIf [] t).
  rewrite !merge_dirtyIf. unfold Model_issues. cbn [apiName uiName].
  now rewrite !app_nil_r.
Qed.

Lemma parseItems_toValue {A : Type} (element : ZodType A) (toValue : A -> value)
    (issues_of : Path -> A -> list ZodIssue) :
  (forall path x,
     element path (Some (toValue x)) = (dirtyIf (issues_of path x) x, issues_of path x)) ->
  forall path i xs,
    parseItems element path i (map toValue xs)
    = (dirtyIf (items_issues issues_of path i xs) xs, items_issues issues_of path i xs).
Proof.
  intros Helement path i xs. revert i.
  induction xs as [|x xs IH]; intros i; [reflexivity|].
  cbn [map parseItems items_issues]. rewrite Helement, IH.
  now rewrite merge_dirtyIf.
Qed.

Lemma parse_models (path : Path) (ms : list Model) :
  z_array ModelSchema (Some (1%nat, "At least one model is required."%string)) path
          (Some (VArr (map Model_toValue ms)))
  = (dirtyIf (noModel_issues path ms ++ items_issues Model_issues path 0 ms) ms,
     noModel_issues path ms ++ items_issues Model_issues path 0 ms).
Proof.
  unfold z_array, noModel_issues.
  rewrite (parseItems_toValue ModelSchema Model_toValue Model_issues ModelSchema_toValue).
  rewrite length_map.
  change (dirtyIf ?i tt) with (dirtyIf i tt).
  now rewrite merge_dirtyIf.
Qed.

Lemma Get_provider (p : Provider) :
  Get (u16 "provider") (Provider_members p) = Some (VStr (provider p)).
Proof. unfold Provider_members. destruct (baseUrl p); reflexivity. Qed.

Lemma Get_apiKeyEnvVar (p : Provider) :
  Get (u16 "apiKeyEnvVar") (Provider_members p) = Some (VStr (apiKeyEnvVar p)).
Proof. unfold Provider_members. destruct (baseUrl p); reflexivity. Qed.

Lemma Get_baseUrl (p : Provider) :
  Get (u16 "baseUrl") (Provider_members p) = option_map VStr (baseUrl p).
Proof. unfold Provider_members. destruct (baseUrl p); reflexivity. Qed.

Lemma Get_models (p : Provider) :
  Get (u16 "models") (Provider_members p) = Some (VArr (map Model_toValue (models p))).
Proof. unfold Provider_members. destruct (baseUrl p); reflexivity. Qed.

Lemma ProviderSchema_toValue (path : Path) (p : Provider) :
  ProviderSchema path (Some (Provider_toValue p))
  = (dirtyIf (Provider_issues path p) p, Provider_issues path p).
Proof.
  unfold ProviderSchema, z_object, shape_key, shape_of, Provider_toValue.
  rewrite Get_provider, Get_apiKeyEnvVar, Get_baseUrl, Get_models.
  rewrite !parse_required, parse_baseUrl, parse_models.
  change (OK Build_Provider) with (dirtyIf [] Build_Provider).
  rewrite !merge_dirtyIf. unfold Provider_issues.
  destruct p; cbn [provider apiKeyEnvVar baseUrl models app].
  now rewrite <- !app_assoc.
Qed.

Lemma ProvidersListSchema_toValue (path : Path) (ps : list Provider) :
  ProvidersListSchema path (Some (Providers_toValue ps))
  = (dirtyIf (Providers_issues path ps) ps, Providers_issues path ps).
Proof.
  unfold ProvidersListSchema, z_array, Providers_toValue, Providers_issues.
  rewrite (parseItems_toValue ProviderSchema Provider_toValue Provider_issues
             ProviderSchema_toValue).
  destruct (items_issues Provider_issues path 0 ps); reflexivity.
Qed.

Lemma FormSchema_toValue (v : FormValues) :
  FormSchema [] (Some (FormValues_toValue v))
  = (dirtyIf (Providers_issues [PKey "providers"] (providers v)) v,
     Providers_issues [PKey "providers"] (providers v)).
Proof.
  unfold FormSchema, z_object, shape_key, shape_of, FormValues_toValue.
  change (Get (u16 "providers") _) with (Some (Providers_toValue (providers v))).
  rewrite ProvidersListSchema_toValue.
  change (OK Build_FormValues) with (dirtyIf [] Build_FormValues).
  rewrite merge_dirtyIf. now destruct v.
Qed.

(** The verdict of a schema on a typed value: it is accepted, unchanged,
    exactly when there is nothing to report. *)
Lemma safeParse_dirtyIf {A : Type} (schema : ZodType A) (v : value) (a : A) issues :
  schema [] (Some v) = (dirtyIf issues a, issues) ->
  safeParse schema v = match issues with [] => success a | i :: l => failure (i :: l) end.
Proof. intros H. unfold safeParse. rewrite H. destruct issues; reflexivity. Qed.

Lemma safeParse_FormSchema (v : FormValues) :
  safeParse FormSchema (FormValues_toValue v)
  = match Providers_issues [PKey "providers"] (providers v) with
    | [] => success v
    | issues => failure issues
    end.
Proof. apply safeParse_dirtyIf, FormSchema_toValue. Qed.

Lemma safeParse_ProvidersListSchema (ps : list Provider) :
  safeParse ProvidersListSchema (Providers_toValue ps)
  = match Providers_issues [] ps with
    | [] => success ps
    | issues => failure issues
    end.
Proof. apply safeParse_dirtyIf, ProvidersListSchema_toValue. Qed.

Lemma safeParse_ProviderSchema (p : Provider) :
  safeParse ProviderSchema (Provider_toValue p)
  = match Provider_issues [] p with
    | [] => success p
    | issues => failure issues
    end.
Proof. apply safeParse_dirtyIf, ProviderSchema_toValue. Qed.

(** Whether there is something to report does not depend on the path. *)
Lemma tooSmall_nil (path : Path) (s : jstring) (message : string) :
  tooSmall path s message = [] <-> (length s <? 1)%nat = false.
Proof. unfold tooSmall. destruct (length s <? 1)%nat; split; congruence. Qed.

Lemma Model_issues_nil (path : Path) (m : Model) :
  Model_issues path m = [] <-> Model_ok m = true.
Proof.
  unfold Model_issues, Model_ok.
  rewrite app_nil, !tooSmall_nil, andb_true_iff, !negb_true_iff. tauto.
Qed.

Lemma items_issues_nil {A : Type} (issues_of : Path -> A -> list ZodIssue)
    (ok : A -> bool) :
  (forall path x, issues_of path x = [] <-> ok x = true) ->
  forall path i xs, items_issues issues_of path i xs = [] <-> forallb ok xs = true.
Proof.
  intros Hok path i xs. revert i.
  induction xs as [|x xs IH]; intros i; cbn [items_issues forallb]; [tauto|].
  rewrite app_nil, andb_true_iff, Hok, IH. tauto.
Qed.

Lemma baseUrl_issues_nil (path : Path) (b : option jstring) :
  baseUrl_issues path b = [] <-> baseUrl_ok b = true.
Proof.
  destruct b as [[|c s]|]; cbn [baseUrl_issues baseUrl_ok]; try tauto.
  destruct (URL_canParse (c :: s)); split; congruence.
Qed.

Lemma baseUrl_ok_canParse (b : jstring) :
  b <> [] -> baseUrl_ok (Some b) = URL_canParse b.
Proof. destruct b; [contradiction|reflexivity]. Qed.

Lemma Provider_issues_nil (path : Path) (p : Provider) :
  Provider_issues path p = [] <-> Provider_ok p = true.
Proof.
  unfold Provider_issues, Provider_ok, noModel_issues.
  rewrite !app_nil, !tooSmall_nil, baseUrl_issues_nil, !andb_true_iff,
    !negb_true_iff, (items_issues_nil Model_issues Model_ok Model_issues_nil).
  destruct (length (models p) <? 1)%nat; intuition congruence.
Qed.

Lemma Providers_issues_nil (path : Path) (ps : list Provider) :
  Providers_issues path ps = [] <-> forallb Provider_ok ps = true.
Proof. apply (items_issues_nil Provider_issues Provider_ok Provider_issues_nil). Qed.

Lemma accepted_ok (p : Provider) : accepted p <-> Provider_ok p = true.
Proof.
  unfold accepted. rewrite safeParse_ProviderSchema, <- (Provider_issues_nil []).
  destruct (Provider_issues [] p); split.
  - reflexivity.
  - eauto.
  - intros [data [=]].
  - discriminate.
Qed.

(** ** Blank texts *)

Lemma trimStart_nil (s : jstring) :
  trimStart s = [] -> forallb isWhiteSpaceOrLineTerminator s = true.
Proof.
  induction s as [|c s IH]; [reflexivity|]. cbn [trimStart forallb].
  destruct (isWhiteSpaceOrLineTerminator c); [exact IH|discriminate].
Qed.

Lemma trimStart_head (s : jstring) (c : N) (t : jstring) :
  trimStart s = c :: t -> isWhiteSpaceOrLineTerminator c = false.
Proof.
  induction s as [|d s IH]; [discriminate|]. cbn [trimStart].
  destruct (isWhiteSpaceOrLineTerminator d) eqn:Hd; [exact IH|].
  now intros [= <- _].
Qed.

Lemma trim_nil (s : jstring) :
  trim s = [] -> forallb isWhiteSpaceOrLineTerminator s = true.
Proof.
  unfold trim. intros H.
  assert (H1 : trimStart (rev (trimStart s)) = []).
  { destruct (trimStart (rev (trimStart s))) as [|c t]; [reflexivity|].
    apply (f_equal (@length N)) in H. rewrite length_rev in H. discriminate. }
  apply trimStart_nil in H1.
  destruct (trimStart s) as [|c t] eqn:Hs; [now apply trimStart_nil|].
  apply trimStart_head in Hs.
  rewrite forallb_forall in H1. rewrite (H1 c) in Hs; [discriminate|].
  apply in_rev. rewrite rev_involutive. now left.
Qed.

Lemma start_value_blank (c : N) :
  isWhiteSpaceOrLineTerminator c = true -> isJSONWhiteSpace c = false ->
  start_value [] c = None.
Proof.
  unfold isWhiteSpaceOrLineTerminator, isJSONWhiteSpace.
  rewrite !orb_true_iff, !orb_false_iff, andb_true_iff, !N.eqb_eq, !N.eqb_neq, !N.leb_le.
  intros Hws Hjson. unfold start_value, num_start, isDigit.
  repeat match goal with
         | |- context [N.eqb c ?k] => destruct (N.eqb_spec c k); [lia|]
         end.
  destruct (N.leb_spec 48 c), (N.leb_spec c 57); cbn [andb]; try reflexivity; lia.
Qed.

Lemma run_blank (s : jstring) :
  forallb isWhiteSpaceOrLineTerminator s = true ->
  run (Some (ExpValue, [])) s = None \/ run (Some (ExpValue, [])) s = Some (ExpValue, []).
Proof.
  induction s as [|c s IH]; [now right|].
  cbn [forallb]. rewrite andb_true_iff. intros [Hc Hs].
  cbn [run step]. destruct (isJSONWhiteSpace c) eqn:Hjson; [now apply IH|].
  rewrite (start_value_blank c Hc Hjson), run_None. now left.
Qed.

Lemma JSON_parse_blank (s : jstring) :
  trim s = [] -> JSON_parse s = None.
Proof.
  intros H. unfold JSON_parse.
  destruct (run_blank s (trim_nil s H)) as [-> | ->]; reflexivity.
Qed.

Lemma JSON_parse_truthy (text : jstring) (v : value) :
  JSON_parse text = Some v -> truthy (trim text) = true.
Proof.
  intros H. destruct (trim text) eqn:Ht; [|reflexivity].
  rewrite (JSON_parse_blank text Ht) in H. discriminate.
Qed.

(** ** No rejection without an issue *)

Lemma merge_reports {A B C : Type} (f : A -> B -> C) ra rb (ia ib : list ZodIssue) :
  match ra with OK _ => True | _ => ia <> [] end ->
  match rb with OK _ => True | _ => ib <> [] end ->
  match merge f ra rb with OK _ => True | _ => ia ++ ib <> [] end.
Proof.
  destruct ra, rb; cbn [merge]; intros Ha Hb; try exact I;
    intros [E1 E2]%app_nil; auto.
Qed.

Lemma reports_string (s : ZodString) : reports (ZodString_parse s).
Proof.
  intros path [[| | |data| |]|]; cbn; try discriminate.
  destruct (flat_map (runStringCheck path data) s); [exact I|discriminate].
Qed.

Lemma reports_boolean : reports z_boolean.
Proof. intros path [[| | | | |]|]; cbn; first [exact I|discriminate]. Qed.

Lemma reports_literal (expected : jstring) : reports (z_literal expected).
Proof.
  intros path input. unfold z_literal.
  destruct (isLiteral expected input); cbn; [exact I|discriminate].
Qed.

Lemma reports_widen {A B : Type} (f : A -> B) (s : ZodType A) :
  reports s -> reports (widen f s).
Proof.
  intros Hs path input. specialize (Hs path input). unfold widen.
  destruct (s path input) as [[| |] issues]; exact Hs.
Qed.

Lemma reports_optional {A : Type} (s : ZodType A) :
  reports s -> reports (z_optional s).
Proof.
  intros Hs path [v|]; [|exact I].
  apply (reports_widen Some s Hs).
Qed.

Lemma reports_or {A : Type} (a b : ZodType A) :
  reports a -> reports b -> reports (z_or a b).
Proof.
  intros Ha Hb path input. specialize (Ha path input). specialize (Hb path input).
  unfold z_or.
  destruct (a path input) as [[| |] ia], (b path input) as [[| |] ib];
    cbn in *; first [exact I|assumption|discriminate].
Qed.

Lemma reports_items {A : Type} (element : ZodType A) :
  reports element ->
  forall path i items,
    match fst (parseItems element path i items) with
    | OK _ => True
    | _ => snd (parseItems element path i items) <> []
    end.
Proof.
  intros He path i items. revert i.
  induction items as [|item items IH]; intros i; [exact I|].
  cbn [parseItems]. specialize (He (path ++ [PIndex i]) (Some item)).
  specialize (IH (S i)).
  destruct (element (path ++ [PIndex i]) (Some item)) as [r issues].
  destruct (parseItems element path (S i) items) as [rs more].
  now apply merge_reports.
Qed.

Lemma reports_array {A : Type} (element : ZodType A) minLength :
  reports element -> reports (z_array element minLength).
Proof.
  intros He path [[| | | |items|]|]; cbn; try discriminate.
  pose proof (reports_items element He path 0%nat items) as H.
  destruct (parseItems element path 0 items) as [rs issues].
  apply merge_reports; [|exact H].
  match goal with
  | |- context [dirtyIf ?found _] => destruct found; [exact I|discriminate]
  end.
Qed.

Lemma reports_shape_of {A : Type} (constructor : A) : shape_reports (shape_of constructor).
Proof. intros path members. exact I. Qed.

Lemma reports_shape_key {A B : Type} (sh : ObjectShape (A -> B)) key (s : ZodType A) :
  shape_reports sh -> reports s -> shape_reports (shape_key sh key s).
Proof.
  intros Hsh Hs path members. unfold shape_key.
  specialize (Hsh path members).
  specialize (Hs (path ++ [PKey key]) (Get (u16 key) members)).
  destruct (sh path members) as [rf issues].
  destruct (s (path ++ [PKey key]) (Get (u16 key) members)) as [ra more].
  now apply merge_reports.
Qed.

Lemma reports_object {A : Type} (sh : ObjectShape A) :
  shape_reports sh -> reports (z_object sh).
Proof.
  intros Hsh path [[| | | | |members]|]; cbn; try discriminate.
  apply Hsh.
Qed.

Create HintDb reports.

#[local] Hint Resolve reports_string reports_boolean reports_literal reports_widen
  reports_optional reports_or reports_array reports_shape_of reports_shape_key
  reports_object : reports.

Lemma reports_ModelSchema : reports ModelSchema.
Proof. unfold ModelSchema. auto 10 with reports. Qed.

#[local] Hint Resolve reports_ModelSchema : reports.

Lemma reports_ProviderSchema : reports ProviderSchema.
Proof. unfold ProviderSchema. auto 10 with reports. Qed.

#[local] Hint Resolve reports_ProviderSchema : reports.

Lemma reports_ProvidersListSchema : reports ProvidersListSchema.
Proof. unfold ProvidersListSchema. auto with reports. Qed.

Lemma safeParse_failure_nonempty {A : Type} (schema : ZodType A) (v : value) issues :
  reports schema -> safeParse schema v = failure issues -> issues <> [].
Proof.
  intros Hs. specialize (Hs [] (Some v)). unfold safeParse.
  destruct (schema [] (Some v)) as [[| |] found]; cbn in Hs; intros [= <-];
    exact Hs.
Qed.

(** ** The text that [onSubmit] writes *)

Lemma number_free_models (ms : list Model) :
  forallb number_free (map Model_toValue ms) = true.
Proof. induction ms as [|m ms IH]; [reflexivity|exact IH]. Qed.

Lemma number_free_Provider (p : Provider) : number_free (Provider_toValue p) = true.
Proof.
  unfold Provider_toValue, Provider_members.
  destruct (baseUrl p); cbn; now rewrite number_free_models.
Qed.

Lemma number_free_Providers (ps : list Provider) :
  number_free (Providers_toValue ps) = true.
Proof.
  unfold Providers_toValue. cbn [number_free].
  induction ps as [|p ps IH]; [reflexivity|].
  cbn [map forallb]. now rewrite number_free_Provider, IH.
Qed.

(** Everything to the right, then compute. *)
Ltac right_nest := repeat (progress (rewrite <- ?app_assoc; cbn [app])).

Lemma JSON_stringify_Model (m : Model) :
  JSON_stringify (Model_toValue m) = oneLine_model m.
Proof.
  destruct m as [a u t]. unfold oneLine_model, Model_toValue.
  cbn [JSON_stringify map join fst snd apiName uiName supportsTools].
  generalize (QuoteJSONString a) (QuoteJSONString u). intros qa qu.
  right_nest. destruct t; vm_compute; reflexivity.
Qed.

Lemma JSON_stringify_Provider (p : Provider) :
  JSON_stringify (Provider_toValue p) = oneLine_provider p.
Proof.
  destruct p as [a u b ms]. unfold oneLine_provider, Provider_toValue, Provider_members.
  cbn [provider apiKeyEnvVar baseUrl models].
  destruct b as [b|]; cbn [app map join fst snd JSON_stringify]; rewrite map_map.
  all: rewrite (map_ext _ _ JSON_stringify_Model).
  all: generalize (join [44] (map oneLine_model ms)); intros qms.
  all: generalize (QuoteJSONString a) (QuoteJSONString u); intros qa qu.
  1: generalize (QuoteJSONString b); intros qb.
  all: right_nest; vm_compute; reflexivity.
Qed.

Lemma JSON_stringify_Providers (ps : list Provider) :
  JSON_stringify (Providers_toValue ps) = oneLine ps.
Proof.
  unfold Providers_toValue, oneLine.
  cbn [JSON_stringify u16 app map list_ascii_of_string].
  now rewrite map_map, (map_ext _ _ JSON_stringify_Provider).
Qed.

Lemma singleLine_app (a b : jstring) :
  singleLine (a ++ b) = singleLine a && singleLine b.
Proof. apply forallb_app. Qed.

Lemma singleLine_hexDigit (d : N) : (32 <=? hexDigit d) = true.
Proof. apply N.leb_le. unfold hexDigit. destruct (d <? 10); lia. Qed.

Lemma singleLine_UnicodeEscape (c : N) : singleLine (UnicodeEscape c) = true.
Proof.
  unfold UnicodeEscape, singleLine. cbn [forallb].
  now rewrite !singleLine_hexDigit.
Qed.

Lemma singleLine_QuoteBody_bounded (n : nat) :
  forall s, (length s <= n)%nat -> singleLine (QuoteBody s) = true.
Proof.
  induction n as [|n IH]; intros s Hlen.
  { destruct s; [reflexivity|simpl in Hlen; lia]. }
  destruct s as [|c s]; [reflexivity|]. simpl in Hlen.
  assert (Hs : (length s <= n)%nat) by lia.
  cbn [QuoteBody].
  destruct (escapeChar c) as [e|] eqn:E.
  { apply escapeChar_Some in E. simpl in E.
    repeat (destruct E as [[= <- <-]|E]; [exact (IH s Hs)|]).
    contradiction. }
  destruct (N.ltb_spec c 32) as [Hlt|Hge].
  { now rewrite singleLine_app, singleLine_UnicodeEscape, (IH s Hs). }
  assert (Hc : (32 <=? c) = true) by now apply N.leb_le.
  destruct (isLeadingSurrogate c).
  { destruct s as [|d s'].
    - apply singleLine_UnicodeEscape.
    - destruct (isTrailingSurrogate d) eqn:Htrail.
      + unfold isTrailingSurrogate in Htrail.
        apply andb_true_iff in Htrail. destruct Htrail as [Ht1 _].
        apply N.leb_le in Ht1.
        unfold singleLine. cbn [forallb]. rewrite Hc.
        replace (32 <=? d) with true by (symmetry; apply N.leb_le; lia).
        simpl in Hs. apply IH. lia.
      + now rewrite singleLine_app, singleLine_UnicodeEscape, (IH _ Hs). }
  destruct (isTrailingSurrogate c).
  { now rewrite singleLine_app, singleLine_UnicodeEscape, (IH s Hs). }
  unfold singleLine. cbn [forallb]. rewrite Hc. exact (IH s Hs).
Qed.

Lemma singleLine_QuoteJSONString (s : jstring) : singleLine (QuoteJSONString s) = true.
Proof.
  unfold QuoteJSONString.
  change (34 :: QuoteBody s ++ [34]) with ([34] ++ QuoteBody s ++ [34]).
  rewrite !singleLine_app, (singleLine_QuoteBody_bounded (length s) s) by lia.
  reflexivity.
Qed.

Lemma singleLine_join (parts : list jstring) :
  forallb singleLine parts = true -> singleLine (join [44] parts) = true.
Proof.
  induction parts as [|part parts IH]; [reflexivity|].
  cbn [forallb]. rewrite andb_true_iff. intros [Hp Hps].
  destruct parts as [|q parts]; [exact Hp|].
  change (join [44] (part :: q :: parts)) with (part ++ [44] ++ join [44] (q :: parts)).
  now rewrite !singleLine_app, Hp, (IH Hps).
Qed.

Lemma singleLine_model (m : Model) : singleLine (oneLine_model m) = true.
Proof.
  unfold oneLine_model. rewrite !singleLine_app, !singleLine_QuoteJSONString.
  now destruct (supportsTools m).
Qed.

Lemma singleLine_provider (p : Provider) : singleLine (oneLine_provider p) = true.
Proof.
  unfold oneLine_provider. rewrite !singleLine_app, !singleLine_QuoteJSONString.
  rewrite singleLine_join.
  - destruct (baseUrl p); [|reflexivity].
    now rewrite singleLine_app, singleLine_QuoteJSONString.
  - rewrite forallb_forall. intros part [m [<- _]]%in_map_iff. apply singleLine_model.
Qed.

Lemma singleLine_oneLine (ps : list Provider) : singleLine (oneLine ps) = true.
Proof.
  unfold oneLine. rewrite !singleLine_app, singleLine_join; [reflexivity|].
  rewrite forallb_forall. intros part [p [<- _]]%in_map_iff. apply singleLine_provider.
Qed.

(** ** Issues by position *)

Lemma items_issues_lookup {A : Type} (issues_of : Path -> A -> list ZodIssue)
    (path : Path) (xs : list A) :
  forall (k i : nat) (x : A) (issue : ZodIssue),
    xs !! i = Some x ->
    List.In issue (issues_of (path ++ [PIndex (k + i)]) x) ->
    List.In issue (items_issues issues_of path k xs).
Proof.
  induction xs as [|y xs IH]; intros k i x issue Hi Hin; [discriminate|].
  cbn [items_issues]. apply in_or_app.
  destruct i as [|i].
  - injection Hi as ->. left. now rewrite Nat.add_0_r in Hin.
  - right. apply (IH (S k) i x issue Hi).
    now replace (S k + i)%nat with (k + S i)%nat by lia.
Qed.

Lemma handleSubmit_invalid (st : State) (issue : ZodIssue) :
  List.In issue (Providers_issues [PKey "providers"] (providers (form st))) ->
  handleSubmit st
  = (st, [form_errors (Providers_issues [PKey "providers"] (providers (form st)))]).
Proof.
  intros Hin. unfold handleSubmit. rewrite safeParse_FormSchema.
  destruct (Providers_issues [PKey "providers"] (providers (form st)));
    [contradiction|reflexivity].
Qed.

Lemma handleSubmit_valid (st : State) :
  Providers_issues [PKey "providers"] (providers (form st)) = [] ->
  handleSubmit st
  = (setOutputJson (oneLine (providers (form st))) st,
     [form_errors [];
      toast_success "JSON Generated!" "The one-line JSON has been created below."]).
Proof.
  intros Hnil. unfold handleSubmit, onSubmit.
  now rewrite safeParse_FormSchema, Hnil, JSON_stringify_Providers.
Qed.

Lemma Provider_ok_withBaseUrl (b : option jstring) (p : Provider) :
  Provider_ok (withBaseUrl b p) = baseUrl_ok b && Provider_ok (withBaseUrl None p).
Proof.
  unfold Provider_ok. cbn [withBaseUrl provider apiKeyEnvVar baseUrl models baseUrl_ok].
  destruct (length (provider p) <? 1)%nat, (length (apiKeyEnvVar p) <? 1)%nat,
    (baseUrl_ok b), (length (models p) <? 1)%nat, (forallb Model_ok (models p));
    reflexivity.
Qed.

Lemma safeParse_ProviderSchema_invalid (p : Provider) (issue : ZodIssue) :
  List.In issue (Provider_issues [] p) ->
  safeParse ProviderSchema (Provider_toValue p) = failure (Provider_issues [] p).
Proof.
  intros Hin. rewrite safeParse_ProviderSchema.
  destruct (Provider_issues [] p); [contradiction|reflexivity].
Qed.

(** * The claims *)

(** C1. For every configuration whose providers the provider schema
    accepts, the text that [onSubmit] writes parses as JSON, the list
    schema accepts the parsed value and its output is the configuration
    itself; so importing that text puts the configuration back. *)
Theorem C1_roundtrip (C : list Provider) (st : State) :
  Forall accepted C ->
  let text := outputJson (fst (onSubmit {| providers := C |} st)) in
  exists parsed,
    JSON_parse text = Some parsed
    /\ safeParse ProvidersListSchema parsed = success C
    /\ handleImport (setImportJson text st)
       = (reset {| providers := C |} (setImportJson text st), ImportSuccessful).
Proof.
  intros Hvalid. cbn [onSubmit fst setOutputJson outputJson providers].
  assert (Hparse : JSON_parse (JSON_stringify (Providers_toValue C))
                   = Some (Providers_toValue C))
    by apply JSON_parse_stringify, number_free_Providers.
  assert (Hschema : safeParse ProvidersListSchema (Providers_toValue C) = success C).
  { rewrite safeParse_ProvidersListSchema.
    replace (Providers_issues [] C) with (@nil ZodIssue); [reflexivity|].
    symmetry. apply Providers_issues_nil, forallb_forall.
    intros p Hp. apply accepted_ok. rewrite Forall_forall in Hvalid. now apply Hvalid. }
  exists (Providers_toValue C). repeat split; [exact Hparse|exact Hschema|].
  unfold handleImport, handleImportWith. cbn [setImportJson importJson].
  now rewrite (JSON_parse_truthy _ _ Hparse), Hparse, Hschema.
Qed.

(** C2. When the import text parses as JSON and the parsed value fails the
    list schema, [handleImport] returns the state it was given, and what it
    reports is the validation error, carrying the issues of the schema, of
    which there is at least one. *)
Theorem C2_import_atomic (st : State) (parsed : value) (issues : list ZodIssue) :
  JSON_parse (importJson st) = Some parsed ->
  safeParse ProvidersListSchema parsed = failure issues ->
  handleImport st = (st, ValidationError issues) /\ issues <> [].
Proof.
  intros Hparse Hinvalid. split.
  - unfold handleImport, handleImportWith.
    now rewrite (JSON_parse_truthy _ _ Hparse), Hparse, Hinvalid.
  - exact (safeParse_failure_nonempty _ _ _ reports_ProvidersListSchema Hinvalid).
Qed.

(** C3. When the values of the form pass the schema, [handleSubmit] stores
    as output the one-line text of the providers: keys in the order
    provider, apiKeyEnvVar, baseUrl, models and apiName, uiName,
    supportsTools, nothing between the tokens, and no code unit below 32,
    so neither a line feed nor a carriage return.  The
    example text of the specification parses to the default Groq
    configuration and is the one-line text of it; and, the URL parser
    accepting the Groq base URL, importing the example and submitting
    yields exactly the example text. *)
Theorem C3_submit_one_line (st : State) (data : FormValues) :
  safeParse FormSchema (FormValues_toValue (form st)) = success data ->
  handleSubmit st
  = (setOutputJson (oneLine (providers (form st))) st,
     [form_errors [];
      toast_success "JSON Generated!" "The one-line JSON has been created below."])
  /\ singleLine (oneLine (providers (form st))) = true
  /\ JSON_parse groqJson = Some (Providers_toValue (providers defaultValues))
  /\ oneLine (providers defaultValues) = groqJson
  /\ (URL_canParse (u16 "https://api.groq.com/openai/v1") = true ->
      forall st0,
        handleImport (setImportJson groqJson st0)
        = (reset defaultValues (setImportJson groqJson st0), ImportSuccessful)
        /\ outputJson (fst (handleSubmit (fst (handleImport (setImportJson groqJson st0)))))
           = groqJson).
Proof.
  intros Hvalid.
  assert (Hgroq : oneLine (providers defaultValues) = groqJson) by (vm_compute; reflexivity).
  assert (Hparse : JSON_parse groqJson = Some (Providers_toValue (providers defaultValues)))
    by (vm_compute; reflexivity).
  split; [|split; [|split; [|split]]].
  - apply handleSubmit_valid.
    rewrite safeParse_FormSchema in Hvalid.
    destruct (Providers_issues [PKey "providers"] (providers (form st)));
      [reflexivity|discriminate].
  - apply singleLine_oneLine.
  - exact Hparse.
  - exact Hgroq.
  - intros Hurl st0.
    assert (Hnil : forall path, Providers_issues path (providers defaultValues) = []).
    { intros path. apply Providers_issues_nil.
      cbn [defaultValues providers forallb]. unfold Provider_ok.
      cbn [defaultProvider baseUrl].
      rewrite baseUrl_ok_canParse, Hurl by discriminate. reflexivity. }
    assert (Himport : handleImport (setImportJson groqJson st0)
                      = (reset defaultValues (setImportJson groqJson st0), ImportSuccessful)).
    { unfold handleImport, handleImportWith. cbn [setImportJson importJson].
      now rewrite (JSON_parse_truthy _ _ Hparse), Hparse, safeParse_ProvidersListSchema,
        Hnil. }
    split; [exact Himport|]. rewrite Himport. cbn [fst].
    rewrite handleSubmit_valid by apply Hnil. exact Hgroq.
Qed.

(** C4, amended.  For every import text that is not blank and that
    [JSON.parse] rejects, [handleImport] reports the parse error, which is
    not a validation error, and returns the state it was given. *)
Theorem C4_parse_error (st : State) :
  truthy (trim (importJson st)) = true ->
  JSON_parse (importJson st) = None ->
  handleImport st = (st, ParseError)
  /\ (forall issues, ParseError <> ValidationError issues).
Proof.
  intros Htext Hparse. split; [|discriminate].
  unfold handleImport, handleImportWith. now rewrite Htext, Hparse.
Qed.

(** C5. When a provider has exactly one model, [removeModel] takes it out:
    the provider is left with no model, everything else as it was.  A
    submission then fails: the errors of the form include, at that
    provider's [models], that at least one model is required; [onSubmit] is
    not called and the output text stays what it was. *)
Theorem C5_remove_only_model (st : State) (i : nat) (p : Provider) (m : Model) :
  providers (form st) !! i = Some p ->
  models p = [m] ->
  let st' := removeModel i 0 st in
  providers (form st') !! i = Some (withModels (fun _ => []) p)
  /\ (forall j, j <> i -> providers (form st') !! j = providers (form st) !! j)
  /\ exists issues,
       handleSubmit st' = (st', [form_errors issues])
       /\ List.In (Issue too_small [PKey "providers"; PIndex i; PKey "models"]
                     (u16 "At least one model is required.") []) issues
       /\ outputJson (fst (handleSubmit st')) = outputJson st.
Proof.
  intros Hi Hm st'.
  assert (Hi' : providers (form st') !! i = Some (withModels (fun _ => []) p)).
  { subst st'. unfold removeModel, setProviders, reset. cbn [form providers].
    rewrite list_lookup_alter_eq, Hi. cbn. unfold withModels, remove. now rewrite Hm. }
  split; [exact Hi'|]. split.
  { intros j Hj. subst st'. unfold removeModel, setProviders, reset. cbn [form providers].
    now apply list_lookup_alter_ne. }
  set (issue := Issue too_small [PKey "providers"; PIndex i; PKey "models"]
                  (u16 "At least one model is required.") []).
  assert (Hin : List.In issue (Providers_issues [PKey "providers"] (providers (form st')))).
  { apply (items_issues_lookup Provider_issues _ _ 0%nat i _ issue Hi').
    unfold Provider_issues. cbn [withModels models provider apiKeyEnvVar baseUrl].
    do 3 (apply in_or_app; right). apply in_or_app. left. now left. }
  eexists. rewrite (handleSubmit_invalid st' issue Hin). repeat split. exact Hin.
Qed.

(** C6. After [appendProvider] a submission fails, whatever the state was:
    the errors of the form include, at the [provider] and at the
    [apiKeyEnvVar] of the new provider, that the field is required;
    [onSubmit] is not called and the output text stays what it was. *)
Theorem C6_append_then_submit (st : State) :
  let st' := appendProvider st in
  let n := length (providers (form st)) in
  exists issues,
    handleSubmit st' = (st', [form_errors issues])
    /\ List.In (Issue too_small [PKey "providers"; PIndex n; PKey "provider"]
                  (u16 "Provider name is required.") []) issues
    /\ List.In (Issue too_small [PKey "providers"; PIndex n; PKey "apiKeyEnvVar"]
                  (u16 "API Key Env Var is required.") []) issues
    /\ outputJson (fst (handleSubmit st')) = outputJson st.
Proof.
  intros st' n.
  assert (Hn : providers (form st') !! n = Some emptyProvider).
  { subst st' n. unfold appendProvider, setProviders, reset, append. cbn [form providers].
    now rewrite list_lookup_middle. }
  set (issue := Issue too_small [PKey "providers"; PIndex n; PKey "provider"]
                  (u16 "Provider name is required.") []).
  assert (Hin : List.In issue (Providers_issues [PKey "providers"] (providers (form st')))).
  { apply (items_issues_lookup Provider_issues _ _ 0%nat n _ issue Hn). now left. }
  eexists. rewrite (handleSubmit_invalid st' issue Hin). repeat split.
  - exact Hin.
  - apply (items_issues_lookup Provider_issues _ _ 0%nat n _ _ Hn). right. now left.
Qed.

(** C7. For the provider schema a [baseUrl] is one of three things.  Absent
    or the empty string: the two are accepted or rejected together, with the
    same issues, and both are accepted when the other fields are in order,
    as for the default provider.  A string that is not empty: accepted only
    if the URL parser accepts it, and it does not accept the text
    not-a-url, which the schema rejects with the issue of [baseUrl]. *)
Theorem C7_baseUrl_three_valued (p : Provider) :
  let absent := withBaseUrl None p in
  let empty := withBaseUrl (Some []) p in
  let bad := withBaseUrl (Some (u16 "not-a-url")) p in
  (accepted absent <-> accepted empty)
  /\ (forall path,
        snd (ProviderSchema path (Some (Provider_toValue absent)))
        = snd (ProviderSchema path (Some (Provider_toValue empty))))
  /\ accepted (withBaseUrl None defaultProvider)
  /\ accepted (withBaseUrl (Some []) defaultProvider)
  /\ (forall b, accepted (withBaseUrl (Some b) p) <->
                accepted absent /\ (b = [] \/ URL_canParse b = true))
  /\ ~ accepted bad
  /\ (exists issues,
        safeParse ProviderSchema (Provider_toValue bad) = failure issues
        /\ List.In (Issue invalid_string [PKey "baseUrl"] (u16 "Must be a valid URL.") [])
                   issues).
Proof.
  intros absent empty bad. subst absent empty bad.
  assert (Hbad : URL_canParse (u16 "not-a-url") = false) by (vm_compute; reflexivity).
  split; [|split; [|split; [|split; [|split; [|split]]]]].
  - rewrite !accepted_ok, (Provider_ok_withBaseUrl (Some [])). reflexivity.
  - intros path. rewrite !ProviderSchema_toValue. reflexivity.
  - now apply accepted_ok.
  - now apply accepted_ok.
  - intros b. rewrite !accepted_ok, (Provider_ok_withBaseUrl (Some b)), andb_true_iff.
    destruct b as [|c b]; cbn [baseUrl_ok].
    + split; [intros [_ H]; auto|intros [H _]; auto].
    + split.
      * intros [H1 H2]. split; [exact H2|right; exact H1].
      * intros [H1 [H2|H2]]; [discriminate|auto].
  - rewrite accepted_ok, Provider_ok_withBaseUrl.
    rewrite baseUrl_ok_canParse, Hbad by discriminate. discriminate.
  - eexists. split.
    + apply (safeParse_ProviderSchema_invalid _
               (Issue invalid_string [PKey "baseUrl"] (u16 "Must be a valid URL.") [])).
      unfold Provider_issues. cbn [withBaseUrl baseUrl].
      apply in_or_app. right. apply in_or_app. right. apply in_or_app. left.
      change (u16 "not-a-url") with (110 :: u16 "ot-a-url") in Hbad |- *.
      cbn [baseUrl_issues]. rewrite Hbad. now left.
    + unfold Provider_issues. cbn [withBaseUrl baseUrl].
      apply in_or_app. right. apply in_or_app. right. apply in_or_app. left.
      change (u16 "not-a-url") with (110 :: u16 "ot-a-url") in Hbad |- *.
      cbn [baseUrl_issues]. rewrite Hbad. now left.
Qed.

(** C8. [appendProvider] is a total operation: it puts exactly one new
    provider at the end of the sequence, with [provider], [apiKeyEnvVar] and
    [baseUrl] the empty string and one model with empty [apiName] and
    [uiName] and [supportsTools] false; the providers that were there stay
    as they were, at their places, and the rest of the state is untouched. *)
Theorem C8_appendProvider (st : State) :
  providers (form (appendProvider st))
  = providers (form st)
    ++ [ {| provider := []; apiKeyEnvVar := []; baseUrl := Some [];
            models := [ {| apiName := []; uiName := []; supportsTools := false |} ] |} ]
  /\ length (providers (form (appendProvider st))) = S (length (providers (form st)))
  /\ (forall (i : nat) (p : Provider),
        providers (form st) !! i = Some p ->
        providers (form (appendProvider st)) !! i = Some p)
  /\ outputJson (appendProvider st) = outputJson st
  /\ importJson (appendProvider st) = importJson st.
Proof.
  unfold appendProvider, setProviders, reset, append. cbn [form providers outputJson importJson].
  repeat split.
  - rewrite length_app. cbn [length]. lia.
  - intros i p Hi. now apply lookup_app_l_Some.
Qed.

(** C9. The list schema accepts the empty array: validating it succeeds with
    the empty list, and importing the text of the empty array replaces the
    configuration by the empty one. *)
Theorem C9_empty_configuration_valid (st : State) :
  safeParse ProvidersListSchema (VArr []) = success []
  /\ JSON_parse (u16 "[]") = Some (VArr [])
  /\ handleImport (setImportJson (u16 "[]") st)
     = (reset {| providers := [] |} (setImportJson (u16 "[]") st), ImportSuccessful).
Proof. repeat split. Qed.

(** C10. When the import text is empty after trimming, [handleImport]
    reports the empty-input error and nothing else, and returns the state
    it was given.  It does so whatever the JSON parser would answer, so
    before any parsing; and although [JSON.parse] would throw on such a
    text, the report is neither the parse error nor the validation error. *)
Theorem C10_empty_input (st : State) :
  trim (importJson st) = [] ->
  (forall parse, handleImportWith parse st = (st, EmptyInputError))
  /\ handleImport st = (st, EmptyInputError)
  /\ JSON_parse (importJson st) = None
  /\ EmptyInputError <> ParseError
  /\ (forall issues, EmptyInputError <> ValidationError issues).
Proof.
  intros Hblank.
  assert (H : forall parse, handleImportWith parse st = (st, EmptyInputError)).
  { intros parse. unfold handleImportWith. now rewrite Hblank. }
  repeat split.
  - exact H.
  - apply H.
  - now apply JSON_parse_blank.
  - discriminate.
  - discriminate.
Qed.

(** * Further properties *)

(** ** What the schemas accept *)

Lemma merge_OK {A B C : Type} (f : A -> B -> C) ra rb (c : C) :
  merge f ra rb = OK c <-> exists a b, ra = OK a /\ rb = OK b /\ c = f a b.
Proof.
  destruct ra as [|a|a], rb as [|b|b]; cbn [merge]; split;
    try discriminate; try (intros [a' [b' [[=] [[=] _]]]]; fail).
  - intros [= <-]. eauto.
  - intros [a' [b' [[= <-] [[= <-] ->]]]]. reflexivity.
Qed.

Lemma fst_shape_key {A B : Type} (sh : ObjectShape (A -> B)) key (s : ZodType A)
    path members :
  fst (shape_key sh key s path members)
  = merge (fun f a => f a) (fst (sh path members))
          (fst (s (path ++ [PKey key]) (Get (u16 key) members))).
Proof.
  unfold shape_key. destruct (sh path members), (s _ _). reflexivity.
Qed.

Lemma safeParse_success {A : Type} (schema : ZodType A) (v : value) (a : A) :
  safeParse schema v = success a <-> fst (schema [] (Some v)) = OK a.
Proof.
  unfold safeParse. destruct (schema [] (Some v)) as [[| b | b] issues]; cbn [fst];
    split; try discriminate; now intros [= ->].
Qed.

Lemma required_OK (message : string) (path : Path) (input : option value) (s : jstring) :
  fst (ZodString_parse (z_min 1 message z_string) path input) = OK s
  <-> input = Some (VStr s) /\ s <> [].
Proof.
  destruct input as [[| b | n | data | items | members]|]; cbn [ZodString_parse fst];
    try (split; [discriminate|intros [[=] _]]).
  unfold z_min, z_string. cbn [app flat_map runStringCheck].
  destruct data as [|c data]; cbn; split.
  - discriminate.
  - intros [[= <-] H]. contradiction.
  - intros [= <-]. split; [reflexivity|discriminate].
  - now intros [[= <-] _].
Qed.

Lemma boolean_OK (path : Path) (input : option value) (b : bool) :
  fst (z_boolean path input) = OK b <-> input = Some (VBool b).
Proof.
  destruct input as [[| b' | n | data | items | members]|]; cbn;
    split; try discriminate; now intros [= ->].
Qed.

Lemma baseUrl_OK (path : Path) (input : option value) (b : option jstring) :
  fst (z_or (z_optional (ZodString_parse (z_url "Must be a valid URL." z_string)))
            (widen Some (z_literal [])) path input) = OK b
  <-> baseUrl_accepts input b.
Proof.
  unfold baseUrl_accepts.
  destruct input as [[| b' | n | data | items | members]|].
  1-3, 5-6: (split; [discriminate|]; intros [[[=] _]|[s [[=] _]]]).
  - unfold z_or, z_optional, widen, ZodString_parse, z_literal, isLiteral, z_url, z_string.
    cbn [app flat_map runStringCheck].
    destruct data as [|c data].
    + cbn. split.
      * intros [= <-]. right. exists []. auto.
      * intros [[[=] _]|[s [[= <-] [-> _]]]]. reflexivity.
    + cbn [jstring_eqb]. destruct (URL_canParse (c :: data)) eqn:Hurl; cbn; split.
      * intros [= <-]. right. exists (c :: data). auto.
      * intros [[[=] _]|[s [[= <-] [-> _]]]]. reflexivity.
      * discriminate.
      * intros [[[=] _]|[s [[= <-] [-> [[=]|H]]]]]. congruence.
  - cbn. split.
    + intros [= <-]. now left.
    + intros [[_ ->]|[s [[=] _]]]. reflexivity.
Qed.

Lemma parseItems_OK {A : Type} (element : ZodType A) (R : value -> A -> Prop) :
  (forall path item a, fst (element path (Some item)) = OK a <-> R item a) ->
  forall path i items l,
    fst (parseItems element path i items) = OK l <-> Forall2 R items l.
Proof.
  intros Helement path i items. revert i.
  induction items as [|item items IH]; intros i l.
  - cbn. split.
    + intros [= <-]. constructor.
    + intros H. inversion H. reflexivity.
  - cbn [parseItems].
    specialize (Helement (path ++ [PIndex i]) item). specialize (IH (S i)).
    destruct (element (path ++ [PIndex i]) (Some item)) as [r issues].
    destruct (parseItems element path (S i) items) as [rs more].
    cbn [fst] in *. rewrite merge_OK. split.
    + intros [a [l' [-> [-> ->]]]]. constructor; [now apply Helement|now apply IH].
    + intros H. inversion H as [|? a ? l' Ha Hl]; subst.
      exists a, l'. repeat split; [now apply Helement|now apply IH].
Qed.

Lemma array_OK {A : Type} (element : ZodType A) (R : value -> A -> Prop) minLength :
  (forall path item a, fst (element path (Some item)) = OK a <-> R item a) ->
  forall path input l,
    fst (z_array element minLength path input) = OK l
    <-> exists items,
          input = Some (VArr items)
          /\ match minLength with
             | Some (minimum, _) => (length items <? minimum)%nat = false
             | None => True
             end
          /\ Forall2 R items l.
Proof.
  intros Helement path input l.
  destruct input as [[| b | n | data | items | members]|];
    try (split; [discriminate|intros [items' [[=] _]]]).
  unfold z_array.
  pose proof (parseItems_OK element R Helement path 0%nat items l) as Hitems.
  destruct (parseItems element path 0 items) as [rs issues]. cbn [fst] in *.
  rewrite merge_OK. split.
  - intros [u [l' [Hmin [-> ->]]]]. exists items. split; [reflexivity|]. split.
    + destruct minLength as [[minimum message]|]; [|exact I].
      destruct (length items <? minimum)%nat; [discriminate|reflexivity].
    + now apply Hitems.
  - intros [items' [[= <-] [Hmin Hl]]]. exists tt, l. split.
    + destruct minLength as [[minimum message]|]; [|reflexivity]. now rewrite Hmin.
    + split; [now apply Hitems|reflexivity].
Qed.

Lemma ModelSchema_OK (path : Path) (input : option value) (m : Model) :
  fst (ModelSchema path input) = OK m <-> Model_accepts input m.
Proof.
  unfold Model_accepts.
  destruct input as [[| b | n | data | items | members]|];
    try (split; [discriminate|intros [members' [[=] _]]]).
  unfold ModelSchema, z_object. rewrite !fst_shape_key. cbn [shape_of fst]. split.
  - intros H.
    apply merge_OK in H as [f3 [t [H3 [Ht ->]]]].
    apply merge_OK in H3 as [f2 [u [H2 [Hu ->]]]].
    apply merge_OK in H2 as [f1 [a [[= <-] [Ha ->]]]].
    apply required_OK in Ha as [Ha Hna]. apply required_OK in Hu as [Hu Hnu].
    apply boolean_OK in Ht.
    exists members. cbn [apiName uiName supportsTools]. repeat split; assumption.
  - intros [members' [[= <-] [Ha [Hna [Hu [Hnu Ht]]]]]].
    destruct m as [a u t]. cbn [apiName uiName supportsTools] in *.
    apply merge_OK. exists (Build_Model a u), t. split; [|split; [|reflexivity]].
    + apply merge_OK. exists (Build_Model a), u. split; [|split; [|reflexivity]].
      * apply merge_OK. exists Build_Model, a. split; [reflexivity|].
        split; [|reflexivity]. apply required_OK. now split.
      * apply required_OK. now split.
    + now apply boolean_OK.
Qed.

Lemma ProviderSchema_OK (path : Path) (input : option value) (p : Provider) :
  fst (ProviderSchema path input) = OK p <-> Provider_accepts input p.
Proof.
  unfold Provider_accepts.
  destruct input as [[| b | n | data | items | members]|];
    try (split; [discriminate|intros [members' [[=] _]]]).
  pose proof (array_OK ModelSchema (fun item m => Model_accepts (Some item) m)
                (Some (1%nat, "At least one model is required."%string))
                (fun path item a => ModelSchema_OK path (Some item) a)) as Hmodels.
  unfold ProviderSchema, z_object. rewrite !fst_shape_key. cbn [shape_of fst]. split.
  - intros H.
    apply merge_OK in H as [f4 [ms [H4 [Hms ->]]]].
    apply merge_OK in H4 as [f3 [b [H3 [Hb ->]]]].
    apply merge_OK in H3 as [f2 [k [H2 [Hk ->]]]].
    apply merge_OK in H2 as [f1 [a [[= <-] [Ha ->]]]].
    apply required_OK in Ha as [Ha Hna]. apply required_OK in Hk as [Hk Hnk].
    apply baseUrl_OK in Hb. apply Hmodels in Hms as [items [Hitems [Hmin Hall]]].
    exists members. cbn [provider apiKeyEnvVar baseUrl models].
    repeat split; try assumption.
    exists items. repeat split; try assumption.
    intros ->. discriminate.
  - intros [members' [[= <-] [Ha [Hna [Hk [Hnk [Hb [items [Hitems [Hne Hall]]]]]]]]]].
    destruct p as [a k b ms]. cbn [provider apiKeyEnvVar baseUrl models] in *.
    apply merge_OK. exists (Build_Provider a k b), ms. split; [|split; [|reflexivity]].
    + apply merge_OK. exists (Build_Provider a k), b. split; [|split; [|reflexivity]].
      * apply merge_OK. exists (Build_Provider a), k. split; [|split; [|reflexivity]].
        -- apply merge_OK. exists Build_Provider, a. split; [reflexivity|].
           split; [|reflexivity]. apply required_OK. now split.
        -- apply required_OK. now split.
      * now apply baseUrl_OK.
    + apply Hmodels. exists items. repeat split; try assumption.
      destruct items; [contradiction|reflexivity].
Qed.

Lemma ProvidersListSchema_OK (path : Path) (input : option value) (ps : list Provider) :
  fst (ProvidersListSchema path input) = OK ps
  <-> exists items,
        input = Some (VArr items)
        /\ Forall2 (fun item p => Provider_accepts (Some item) p) items ps.
Proof.
  unfold ProvidersListSchema.
  rewrite (array_OK ProviderSchema (fun item p => Provider_accepts (Some item) p) None
             (fun path item a => ProviderSchema_OK path (Some item) a)).
  split; intros [items [H1 H2]]; exists items; tauto.
Qed.

(** X1. [ModelSchema] accepts a value, with output [m], exactly when the
    value is an object whose [apiName] and [uiName] are the non-empty
    strings of [m] and whose [supportsTools] is the boolean of [m];
    whatever else the object holds plays no part. *)
Theorem X1_ModelSchema_accepts (v : value) (m : Model) :
  safeParse ModelSchema v = success m <-> Model_accepts (Some v) m.
Proof. rewrite safeParse_success. apply ModelSchema_OK. Qed.

(** X2. [ProviderSchema] accepts a value, with output [p], exactly when the
    value is an object with non-empty strings for [provider] and
    [apiKeyEnvVar]; whose [baseUrl] is missing (output: none), or the empty
    string, or a string the URL parser accepts; and whose [models] is an
    array, not empty, of values that [ModelSchema] accepts, with the models
    of [p] as outputs in the same order. *)
Theorem X2_ProviderSchema_accepts (v : value) (p : Provider) :
  safeParse ProviderSchema v = success p <-> Provider_accepts (Some v) p.
Proof. rewrite safeParse_success. apply ProviderSchema_OK. Qed.

(** X3. The list schema accepts exactly the arrays all of whose items the
    provider schema accepts, the outputs in the order of the items; the
    array may be empty. *)
Theorem X3_ProvidersListSchema_accepts (v : value) (ps : list Provider) :
  safeParse ProvidersListSchema v = success ps
  <-> exists items,
        v = VArr items
        /\ Forall2 (fun item p => safeParse ProviderSchema item = success p) items ps.
Proof.
  rewrite safeParse_success, ProvidersListSchema_OK. split.
  - intros [items [[= ->] H]]. exists items. split; [reflexivity|].
    induction H; constructor; [|assumption].
    apply safeParse_success. now apply ProviderSchema_OK.
  - intros [items [-> H]]. exists items. split; [reflexivity|].
    induction H; constructor; [|assumption].
    apply (ProviderSchema_OK []). now apply safeParse_success.
Qed.

(** ** What an import lets in *)

Lemma Model_accepts_ok (input : option value) (m : Model) :
  Model_accepts input m -> Model_ok m = true.
Proof.
  intros [members [_ [_ [Ha [_ [Hu _]]]]]]. unfold Model_ok.
  destruct (apiName m); [contradiction|]. destruct (uiName m); [contradiction|].
  reflexivity.
Qed.

Lemma baseUrl_accepts_ok (input : option value) (b : option jstring) :
  baseUrl_accepts input b -> baseUrl_ok b = true.
Proof.
  intros [[_ ->]|[s [_ [-> [->|Hs]]]]]; [reflexivity|reflexivity|].
  destruct s; [reflexivity|exact Hs].
Qed.

Lemma Provider_accepts_ok (input : option value) (p : Provider) :
  Provider_accepts input p -> Provider_ok p = true.
Proof.
  intros [members [_ [_ [Ha [_ [Hk [Hb [items [_ [Hne Hall]]]]]]]]]].
  unfold Provider_ok. rewrite (baseUrl_accepts_ok _ _ Hb).
  destruct (provider p); [contradiction|].
  destruct (apiKeyEnvVar p); [contradiction|]. cbn.
  assert (Hms : forallb Model_ok (models p) = true).
  { clear Hne. induction Hall as [|item m items ms Hm _ IH]; [reflexivity|].
    cbn [forallb]. now rewrite (Model_accepts_ok _ _ Hm), IH. }
  rewrite Hms. destruct Hall; [contradiction|reflexivity].
Qed.

Lemma ProvidersListSchema_sound (v : value) (ps : list Provider) :
  safeParse ProvidersListSchema v = success ps -> forallb Provider_ok ps = true.
Proof.
  rewrite safeParse_success, ProvidersListSchema_OK.
  intros [items [_ Hall]].
  induction Hall as [|item p items ps Hp _ IH]; [reflexivity|].
  cbn [forallb]. now rewrite (Provider_accepts_ok _ _ Hp), IH.
Qed.

Lemma handleImport_cases (st : State) :
  (trim (importJson st) = [] /\ handleImport st = (st, EmptyInputError))
  \/ (JSON_parse (importJson st) = None /\ handleImport st = (st, ParseError))
  \/ (exists parsed issues,
        JSON_parse (importJson st) = Some parsed
        /\ safeParse ProvidersListSchema parsed = failure issues
        /\ handleImport st = (st, ValidationError issues))
  \/ (exists parsed data,
        JSON_parse (importJson st) = Some parsed
        /\ safeParse ProvidersListSchema parsed = success data
        /\ handleImport st = (reset {| providers := data |} st, ImportSuccessful)).
Proof.
  unfold handleImport, handleImportWith.
  destruct (trim (importJson st)) as [|c t] eqn:Htrim; [now left|]. right.
  cbn [truthy negb].
  destruct (JSON_parse (importJson st)) as [parsed|]; [|now left]. right.
  destruct (safeParse ProvidersListSchema parsed) as [data|issues] eqn:Hschema.
  - right. now exists parsed, data.
  - left. now exists parsed, issues.
Qed.

Lemma reimport (ps : list Provider) (st : State) :
  forallb Provider_ok ps = true ->
  handleImport (setImportJson (oneLine ps) st)
  = (reset {| providers := ps |} (setImportJson (oneLine ps) st), ImportSuccessful).
Proof.
  intros Hok.
  assert (Hparse : JSON_parse (oneLine ps) = Some (Providers_toValue ps)).
  { rewrite <- JSON_stringify_Providers.
    apply JSON_parse_stringify, number_free_Providers. }
  unfold handleImport, handleImportWith. cbn [setImportJson importJson].
  rewrite (JSON_parse_truthy _ _ Hparse), Hparse, safeParse_ProvidersListSchema.
  apply (Providers_issues_nil []) in Hok. now rewrite Hok.
Qed.

(** X4. A successful import leaves a form that submits: the submission
    right after it writes the one-line text of what was imported, and that
    text, pasted back and imported, gives the same providers again. *)
Theorem X4_import_then_submit (st : State) :
  snd (handleImport st) = ImportSuccessful ->
  let imported := fst (handleImport st) in
  let text := oneLine (providers (form imported)) in
  handleSubmit imported
  = (setOutputJson text imported,
     [form_errors [];
      toast_success "JSON Generated!" "The one-line JSON has been created below."])
  /\ form (fst (handleImport (setImportJson text imported))) = form imported
  /\ snd (handleImport (setImportJson text imported)) = ImportSuccessful.
Proof.
  intros Hok imported text. subst imported text.
  destruct (handleImport_cases st)
    as [[_ H]|[[_ H]|[(parsed & issues & _ & _ & H)|(parsed & data & _ & Hdata & H)]]];
    rewrite H in Hok |- *; try discriminate.
  cbn [fst reset form providers].
  apply ProvidersListSchema_sound in Hdata.
  split.
  - apply handleSubmit_valid. cbn [reset form providers].
    now apply Providers_issues_nil.
  - rewrite (reimport data _ Hdata). split; reflexivity.
Qed.

(** X5. [handleImport] never changes the output text nor the pasted text,
    and whenever it reports anything but success it returns the very state
    it was given; what it reports is one of four things. *)
Theorem X5_import_touches_only_the_form (st : State) :
  outputJson (fst (handleImport st)) = outputJson st
  /\ importJson (fst (handleImport st)) = importJson st
  /\ (snd (handleImport st) <> ImportSuccessful -> fst (handleImport st) = st)
  /\ (snd (handleImport st) = EmptyInputError
      \/ snd (handleImport st) = ParseError
      \/ (exists issues, issues <> [] /\ snd (handleImport st) = ValidationError issues)
      \/ snd (handleImport st) = ImportSuccessful).
Proof.
  destruct (handleImport_cases st)
    as [[_ H]|[[_ H]|[(parsed & issues & _ & Hbad & H)|(parsed & data & _ & _ & H)]]];
    rewrite H; cbn [fst snd reset outputJson importJson];
    repeat split; try reflexivity; try contradiction; auto.
  right. right. left. exists issues. split; [|reflexivity].
  exact (safeParse_failure_nonempty _ _ _ reports_ProvidersListSchema Hbad).
Qed.

(** X6. Importing twice is importing once: a second click on the import
    button, the pasted text unchanged, gives the same state and the same
    report. *)
Theorem X6_import_idempotent (st : State) :
  handleImport (fst (handleImport st)) = handleImport st.
Proof.
  destruct (handleImport_cases st)
    as [[_ H]|[[_ H]|[(parsed & issues & _ & _ & H)|(parsed & data & Hp & Hd & H)]]];
    rewrite H; cbn [fst]; try exact H.
  unfold handleImport, handleImportWith in *. cbn [reset importJson] in *.
  rewrite (JSON_parse_truthy _ _ Hp), Hp, Hd. reflexivity.
Qed.

(** ** What a submission reports *)






Lemma handleSubmit_cases (st : State) :
  (forallb Provider_ok (providers (form st)) = true
   /\ handleSubmit st
      = (setOutputJson (oneLine (providers (form st))) st,
         [form_errors [];
          toast_success "JSON Generated!" "The one-line JSON has been created below."]))
  \/ (forallb Provider_ok (providers (form st)) = false
      /\ Providers_issues [PKey "providers"] (providers (form st)) <> []
      /\ handleSubmit st
         = (st, [form_errors (Providers_issues [PKey "providers"] (providers (form st)))])).
Proof.
  destruct (forallb Provider_ok (providers (form st))) eqn:Hok.
  - left. split; [reflexivity|]. apply handleSubmit_valid.
    now apply Providers_issues_nil.
  - right.
    assert (Hne : Providers_issues [PKey "providers"] (providers (form st)) <> []).
    { intros Hnil. apply Providers_issues_nil in Hnil. congruence. }
    repeat split; [exact Hne|].
    destruct (Providers_issues [PKey "providers"] (providers (form st))) as [|issue l] eqn:E;
      [contradiction|].
    rewrite <- E. apply (handleSubmit_invalid st issue). rewrite E. now left.
Qed.

Lemma Forall_accepted_ok (ps : list Provider) :
  Forall accepted ps <-> forallb Provider_ok ps = true.
Proof.
  rewrite Forall_forall, forallb_forall. split; intros H p Hp; apply accepted_ok, H, Hp.
Qed.


(** X7. A submission has two outcomes.  Every provider in order: the output
    text becomes the one-line text of the providers and the success toast
    is shown.  Otherwise: the state comes back as it was, so the output box
    keeps the text of the last successful submission, there is at least one
    error for the form, and no toast and no console line.  In both, the
    values of the form and the pasted text are as before. *)
Theorem X7_submit_outcomes (st : State) :
  ((Forall accepted (providers (form st))
    /\ handleSubmit st
       = (setOutputJson (oneLine (providers (form st))) st,
          [form_errors [];
           toast_success "JSON Generated!" "The one-line JSON has been created below."]))
   \/ (~ Forall accepted (providers (form st))
       /\ exists issues, issues <> [] /\ handleSubmit st = (st, [form_errors issues])))
  /\ form (fst (handleSubmit st)) = form st
  /\ importJson (fst (handleSubmit st)) = importJson st.
Proof.
  rewrite Forall_accepted_ok.
  destruct (handleSubmit_cases st) as [[Hok H]|[Hok [Hne H]]]; rewrite H.
  - split; [left; now split|]. split; reflexivity.
  - split; [right|split; reflexivity]. split; [congruence|]. eauto.
Qed.


(** ** Reading the members of an object *)

Lemma jstring_eqb_eq (a b : jstring) : jstring_eqb a b = true <-> a = b.
Proof.
  revert b. induction a as [|x a IH]; intros [|y b]; cbn [jstring_eqb];
    try (split; [discriminate|discriminate]); [tauto|].
  rewrite andb_true_iff, N.eqb_eq, IH. split.
  - now intros [-> ->].
  - now intros [= -> ->].
Qed.

Lemma jstring_eqb_neq (a b : jstring) : a <> b -> jstring_eqb a b = false.
Proof.
  intros H. destruct (jstring_eqb a b) eqn:E; [|reflexivity].
  apply jstring_eqb_eq in E. contradiction.
Qed.

Lemma Get_app (key : jstring) (a b : list (jstring * value)) :
  Get key (a ++ b) = match Get key b with Some w => Some w | None => Get key a end.
Proof.
  induction a as [|[k v] a IH]; cbn [app Get].
  - now destruct (Get key b).
  - rewrite IH. destruct (Get key b); [reflexivity|]. reflexivity.
Qed.

Lemma Get_other (key k : jstring) (v : value) (a b : list (jstring * value)) :
  k <> key -> Get key (a ++ (k, v) :: b) = Get key (a ++ b).
Proof.
  intros Hk. rewrite !Get_app. cbn [Get]. rewrite (jstring_eqb_neq _ _ Hk).
  now destruct (Get key b).
Qed.

Lemma Get_Some_In (key : jstring) (ms : list (jstring * value)) :
  List.NoDup (map fst ms) -> forall v, Get key ms = Some v <-> List.In (key, v) ms.
Proof.
  induction ms as [|[k x] ms IH]; cbn [map fst Get]; intros Hnd v.
  - split; [discriminate|contradiction].
  - apply NoDup_cons_iff in Hnd as [Hk Hnd]. specialize (IH Hnd).
    assert (Hk' : forall w, ~ List.In (k, w) ms).
    { intros w Hin. apply Hk. apply in_map_iff. now exists (k, w). }
    destruct (Get key ms) as [w|] eqn:E.
    + assert (Hw : List.In (key, w) ms) by now apply IH.
      split.
      * intros [= <-]. now right.
      * intros [[= -> ->]|Hin]; [now apply Hk' in Hw|]. now apply IH in Hin.
    + destruct (jstring_eqb k key) eqn:Ek.
      * apply jstring_eqb_eq in Ek as ->. split.
        -- intros [= ->]. now left.
        -- intros [[= ->]|Hin]; [reflexivity|]. apply IH in Hin. discriminate.
      * split; [discriminate|]. intros [[= -> ->]|Hin].
        -- assert (Ht : jstring_eqb key key = true) by now apply jstring_eqb_eq.
           congruence.
        -- apply IH in Hin. discriminate.
Qed.

Lemma Get_Permutation (key : jstring) (ms ms' : list (jstring * value)) :
  List.NoDup (map fst ms) -> Permutation ms ms' -> Get key ms = Get key ms'.
Proof.
  intros Hnd Hperm.
  assert (Hnd' : List.NoDup (map fst ms')).
  { eapply Permutation_NoDup; [|exact Hnd]. now apply Permutation_map. }
  destruct (Get key ms) as [v|] eqn:E, (Get key ms') as [v'|] eqn:E'; try reflexivity.
  - apply (Get_Some_In _ _ Hnd) in E.
    apply (Permutation_in _ Hperm), (Get_Some_In _ _ Hnd') in E. congruence.
  - apply (Get_Some_In _ _ Hnd) in E.
    apply (Permutation_in _ Hperm), (Get_Some_In _ _ Hnd') in E. congruence.
  - apply (Get_Some_In _ _ Hnd') in E'.
    apply (Permutation_in _ (Permutation_sym Hperm)), (Get_Some_In _ _ Hnd) in E'.
    congruence.
Qed.

(** X9. The object schemas strip what they do not know: a member whose
    name is not a key of the schema, wherever it stands in the object,
    changes neither the output nor the issues of [ProviderSchema], and the
    same holds for [ModelSchema]. *)
Theorem X9_unknown_keys_stripped (path : Path) (k : jstring) (v : value)
    (before after : list (jstring * value)) :
  (~ List.In k providerKeys ->
   ProviderSchema path (Some (VObj (before ++ (k, v) :: after)))
   = ProviderSchema path (Some (VObj (before ++ after))))
  /\ (~ List.In k modelKeys ->
      ModelSchema path (Some (VObj (before ++ (k, v) :: after)))
      = ModelSchema path (Some (VObj (before ++ after)))).
Proof.
  split; intros Hk.
  - unfold ProviderSchema, z_object, shape_key, shape_of.
    rewrite !(Get_other _ k v before after); [reflexivity|..];
      intros ->; apply Hk; cbn; tauto.
  - unfold ModelSchema, z_object, shape_key, shape_of.
    rewrite !(Get_other _ k v before after); [reflexivity|..];
      intros ->; apply Hk; cbn; tauto.
Qed.

(** X10. The order of the members of an object is of no account: two
    objects with the same members, no name twice, in any order get the same
    output and the same issues from [ProviderSchema] and from
    [ModelSchema]. *)
Theorem X10_member_order_irrelevant (path : Path) (ms ms' : list (jstring * value)) :
  List.NoDup (map fst ms) ->
  Permutation ms ms' ->
  ProviderSchema path (Some (VObj ms)) = ProviderSchema path (Some (VObj ms'))
  /\ ModelSchema path (Some (VObj ms)) = ModelSchema path (Some (VObj ms')).
Proof.
  intros Hnd Hperm. split.
  - unfold ProviderSchema, z_object, shape_key, shape_of.
    now rewrite !(fun key => Get_Permutation key ms ms' Hnd Hperm).
  - unfold ModelSchema, z_object, shape_key, shape_of.
    now rewrite !(fun key => Get_Permutation key ms ms' Hnd Hperm).
Qed.

(** ** White space around the pasted text *)

Lemma trimStart_blank (s : jstring) :
  forallb isWhiteSpaceOrLineTerminator s = true -> trimStart s = [].
Proof.
  induction s as [|c s IH]; [reflexivity|]. cbn [forallb trimStart].
  intros [Hc Hs]%andb_true_iff. rewrite Hc. now apply IH.
Qed.

Lemma trim_nil_iff (s : jstring) :
  trim s = [] <-> forallb isWhiteSpaceOrLineTerminator s = true.
Proof.
  split; [apply trim_nil|]. intros H. unfold trim. now rewrite (trimStart_blank s H).
Qed.

Lemma JSON_white_cases (c : N) :
  isJSONWhiteSpace c = true -> c = 9 \/ c = 10 \/ c = 13 \/ c = 32.
Proof.
  unfold isJSONWhiteSpace. rewrite !orb_true_iff, !N.eqb_eq. tauto.
Qed.

Lemma JSON_white_is_white (c : N) :
  isJSONWhiteSpace c = true -> isWhiteSpaceOrLineTerminator c = true.
Proof. intros [->|[->|[->| ->]]]%JSON_white_cases; reflexivity. Qed.

(** X11. The blank test trims, the parser does not: a pasted text that
    starts with a character [trim] removes but JSON does not count as white
    space (a no-break space, a byte order mark, a vertical tab, ...) is
    reported as a parse error whatever follows, provided what follows is
    not blank. *)
Theorem X11_leading_non_JSON_space (st : State) (c : N) (t : jstring) :
  importJson st = c :: t ->
  isWhiteSpaceOrLineTerminator c = true ->
  isJSONWhiteSpace c = false ->
  truthy (trim t) = true ->
  handleImport st = (st, ParseError).
Proof.
  intros Htext Hc Hjson Ht.
  unfold handleImport, handleImportWith. rewrite Htext.
  assert (Htrim : trim (c :: t) = trim t).
  { unfold trim. cbn [trimStart]. now rewrite Hc. }
  rewrite Htrim, Ht. cbn [negb].
  unfold JSON_parse. cbn [run step]. rewrite Hjson, (start_value_blank c Hc Hjson).
  now rewrite run_None.
Qed.

Lemma run_leading_white (pre t : jstring) (st : pstate) :
  forallb isJSONWhiteSpace pre = true ->
  fst st = ExpValue ->
  run (Some st) (pre ++ t) = run (Some st) t.
Proof.
  intros Hpre Hst. destruct st as [m stk]. cbn [fst] in Hst. subst m.
  induction pre as [|c pre IH]; [reflexivity|].
  cbn [forallb] in Hpre. apply andb_true_iff in Hpre as [Hc Hpre].
  cbn [app run step]. rewrite Hc. now apply IH.
Qed.

Lemma deliver_literal_ok (v : value) (stk : list frame) (st : pstate) :
  deliver v stk = Some st -> literal_ok st = true.
Proof.
  unfold deliver. destruct stk as [|[acc|acc|key] [|[acc'|acc'|key'] k]];
    intros [= <-]; reflexivity.
Qed.

Lemma start_value_literal_ok (stk : list frame) (c : N) (st : pstate) :
  start_value stk c = Some st -> literal_ok st = true.
Proof.
  unfold start_value.
  repeat match goal with
         | |- context [N.eqb c ?k] =>
             destruct (N.eqb c k); [intros [= <-]; reflexivity|]
         end.
  destruct (num_start c); intros [= <-]. reflexivity.
Qed.

Lemma step_post_literal_ok (m : mode) (stk : list frame) (c : N) (st : pstate) :
  step_post m stk c = Some st -> literal_ok st = true.
Proof.
  unfold step_post. destruct m; try discriminate.
  - destruct (isJSONWhiteSpace c); [intros [= <-]; reflexivity|].
    destruct stk as [|[acc|acc|key] k]; try discriminate;
      (destruct (c =? 44); [intros [= <-]; reflexivity|]);
      match goal with
      | |- context [N.eqb c ?k] => destruct (N.eqb c k); [|discriminate]
      end; apply deliver_literal_ok.
  - destruct (isJSONWhiteSpace c); [intros [= <-]; reflexivity|discriminate].
Qed.

Lemma step_literal_ok (st : pstate) (c : N) (st' : pstate) :
  literal_ok st = true -> step st c = Some st' -> literal_ok st' = true.
Proof.
  destruct st as [m stk]. intros Hok. unfold step. destruct m.
  - destruct (isJSONWhiteSpace c); [intros [= <-]; reflexivity|].
    apply start_value_literal_ok.
  - destruct (isJSONWhiteSpace c); [intros [= <-]; reflexivity|].
    destruct (c =? 93); [|apply start_value_literal_ok].
    destruct stk as [|[[|]|acc|key] k]; try discriminate. apply deliver_literal_ok.
  - destruct (isJSONWhiteSpace c); [intros [= <-]; reflexivity|].
    destruct (c =? 34); [intros [= <-]; reflexivity|discriminate].
  - destruct (isJSONWhiteSpace c); [intros [= <-]; reflexivity|].
    destruct (c =? 125).
    + destruct stk as [|[acc|[|]|key] k]; try discriminate. apply deliver_literal_ok.
    + destruct (c =? 34); [intros [= <-]; reflexivity|discriminate].
  - destruct (isJSONWhiteSpace c); [intros [= <-]; reflexivity|].
    destruct (c =? 58); [intros [= <-]; reflexivity|discriminate].
  - unfold step_string. destruct s as [| |count code].
    + destruct (c =? 34).
      * destruct iskey; [intros [= <-]; reflexivity|apply deliver_literal_ok].
      * destruct (c =? 92); [intros [= <-]; reflexivity|].
        destruct (c <? 32); [discriminate|intros [= <-]; reflexivity].
    + destruct (unescape c); [intros [= <-]; reflexivity|].
      destruct (c =? 117); [intros [= <-]; reflexivity|discriminate].
    + destruct (hexValue c); [|discriminate].
      destruct (Nat.eqb count 3); intros [= <-]; reflexivity.
  - destruct (num_step s c); [intros [= <-]; reflexivity|].
    destruct (num_final s); [|discriminate].
    destruct (deliver (VNum (StringToNumber (rev acc))) stk) as [[m' stk']|];
      [|discriminate].
    apply step_post_literal_ok.
  - destruct rest as [|x r]; [discriminate|].
    destruct (c =? x); [|discriminate].
    destruct r as [|y r]; [apply deliver_literal_ok|].
    intros [= <-]. cbn [literal_ok fst forallb] in *.
    now apply andb_true_iff in Hok as [_ Hok].
  - apply step_post_literal_ok.
  - apply step_post_literal_ok.
Qed.

Lemma run_literal_ok (t : jstring) :
  forall st st', literal_ok st = true -> run (Some st) t = Some st' ->
                 literal_ok st' = true.
Proof.
  induction t as [|c t IH]; intros st st' Hok; cbn [run].
  - now intros [= <-].
  - destruct (step st c) as [st1|] eqn:E; [|now rewrite run_None].
    apply IH. exact (step_literal_ok st c st1 Hok E).
Qed.

Lemma finish_white (st : pstate) (c : N) :
  literal_ok st = true -> isJSONWhiteSpace c = true ->
  finish (step st c) = finish (Some st).
Proof.
  intros Hok Hc. destruct st as [m stk]. unfold step. destruct m.
  1-5: now rewrite Hc.
  - destruct (JSON_white_cases c Hc) as [->|[->|[->| ->]]];
      destruct s as [| |count code]; cbn; try reflexivity.
  - assert (Hstep : num_step s c = None)
      by (destruct (JSON_white_cases c Hc) as [->|[->|[->| ->]]]; destruct s; reflexivity).
    rewrite Hstep. cbn [finish]. destruct (num_final s).
    + destruct stk as [|[acc'|acc'|key] [|[acc''|acc''|key'] k]]; cbn [deliver step_post];
        rewrite ?Hc; reflexivity.
    + now destruct stk.
  - destruct rest as [|x r]; [reflexivity|].
    cbn [literal_ok fst forallb] in Hok. apply andb_true_iff in Hok as [Hx _].
    destruct (N.eqb_spec c x) as [->|_]; [|reflexivity].
    rewrite Hc in Hx. discriminate.
  - cbn [step_post]. now rewrite Hc.
  - cbn [step_post]. now rewrite Hc.
Qed.

Lemma finish_trailing_white (post : jstring) :
  forallb isJSONWhiteSpace post = true ->
  forall st, literal_ok st = true -> finish (run (Some st) post) = finish (Some st).
Proof.
  induction post as [|c post IH]; intros Hpost st Hok; [reflexivity|].
  cbn [forallb] in Hpost. apply andb_true_iff in Hpost as [Hc Hpost].
  cbn [run]. rewrite <- (finish_white st c Hok Hc).
  destruct (step st c) as [st1|] eqn:E; [|now rewrite run_None].
  apply (IH Hpost). exact (step_literal_ok st c st1 Hok E).
Qed.

Lemma JSON_parse_padded (pre t post : jstring) :
  forallb isJSONWhiteSpace pre = true ->
  forallb isJSONWhiteSpace post = true ->
  JSON_parse (pre ++ t ++ post) = JSON_parse t.
Proof.
  intros Hpre Hpost. unfold JSON_parse.
  rewrite (run_leading_white pre _ (ExpValue, []) Hpre eq_refl), run_app.
  set (mid := run (Some (ExpValue, [])) t).
  change (run (Some (ExpValue, [])) t) with mid.
  destruct mid as [st|] eqn:E.
  - apply (finish_trailing_white post Hpost).
    exact (run_literal_ok t (ExpValue, []) st eq_refl E).
  - now rewrite run_None.
Qed.

Lemma forallb_JSON_white (s : jstring) :
  forallb isJSONWhiteSpace s = true -> forallb isWhiteSpaceOrLineTerminator s = true.
Proof.
  rewrite !forallb_forall. intros H c Hc. now apply JSON_white_is_white, H.
Qed.

Lemma truthy_trim_padded (pre t post : jstring) :
  forallb isJSONWhiteSpace pre = true ->
  forallb isJSONWhiteSpace post = true ->
  truthy (trim (pre ++ t ++ post)) = truthy (trim t).
Proof.
  intros Hpre%forallb_JSON_white Hpost%forallb_JSON_white.
  assert (H : trim (pre ++ t ++ post) = [] <-> trim t = []).
  { rewrite !trim_nil_iff, !forallb_app, Hpre, Hpost, andb_true_r. reflexivity. }
  destruct (trim t) as [|c s], (trim (pre ++ t ++ post)) as [|c' s']; try reflexivity.
  - destruct H as [_ H]. discriminate (H eq_refl).
  - destruct H as [H _]. discriminate (H eq_refl).
Qed.

(** X12. White space of JSON (space, tab, line feed, carriage return) put
    before and after the pasted text changes nothing in what an import
    does: the form that results and the report are the same. *)
Theorem X12_padding_ignored (st : State) (pre post : jstring) :
  forallb isJSONWhiteSpace pre = true ->
  forallb isJSONWhiteSpace post = true ->
  let padded := setImportJson (pre ++ importJson st ++ post) st in
  form (fst (handleImport padded)) = form (fst (handleImport st))
  /\ snd (handleImport padded) = snd (handleImport st).
Proof.
  intros Hpre Hpost padded. subst padded.
  unfold handleImport, handleImportWith. cbn [setImportJson importJson].
  rewrite (truthy_trim_padded _ _ _ Hpre Hpost), (JSON_parse_padded _ _ _ Hpre Hpost).
  destruct (truthy (trim (importJson st))); cbn [negb]; [|now split].
  destruct (JSON_parse (importJson st)) as [parsed|]; [|now split].
  destruct (safeParse ProvidersListSchema parsed); now split.
Qed.

(** ** The field arrays *)

Lemma delete_out_of_range {A : Type} (l : list A) (i : nat) :
  (length l <= i)%nat -> delete i l = l.
Proof.
  revert i. induction l as [|x l IH]; intros [|i] Hi; cbn in *;
    try reflexivity; [lia|]. f_equal. apply IH. lia.
Qed.

Lemma State_eta (st : State) :
  {| form := {| providers := providers (form st) |};
     outputJson := outputJson st; importJson := importJson st |} = st.
Proof. now destruct st as [[ps] out imp]. Qed.

Lemma Provider_eta (p : Provider) : withModels (fun _ => models p) p = p.
Proof. now destruct p. Qed.

(** X13. Taking out the provider that [appendProvider] has just added gives
    back the state as it was. *)
Theorem X13_append_remove_provider (st : State) :
  removeProvider (length (providers (form st))) (appendProvider st) = st.
Proof.
  unfold removeProvider, appendProvider, setProviders, reset, append, remove.
  cbn [form providers outputJson importJson].
  rewrite delete_middle, app_nil_r. apply State_eta.
Qed.

(** X14. Taking out the model that [appendModel] has just added to a
    provider gives back the state as it was. *)
Theorem X14_append_remove_model (st : State) (i : nat) (p : Provider) :
  providers (form st) !! i = Some p ->
  removeModel i (length (models p)) (appendModel i st) = st.
Proof.
  intros Hi. unfold removeModel, appendModel, setProviders, reset, append, remove.
  cbn [form providers outputJson importJson].
  rewrite list_alter_alter_eq.
  rewrite (list_alter_ext _ id _ (providers (form st)) i); [|intros x Hx|reflexivity].
  - rewrite list_alter_id by reflexivity. apply State_eta.
  - rewrite Hi in Hx. injection Hx as <-. unfold compose, withModels.
    cbn [models provider apiKeyEnvVar baseUrl].
    rewrite delete_middle, app_nil_r. now destruct p.
Qed.

(** X15. [removeProvider] at an index that exists takes that provider out:
    one provider less, those before it where they were, those after it one
    place down.  At an index that does not exist it changes nothing. *)
Theorem X15_removeProvider_by_index (st : State) (i : nat) :
  ((i < length (providers (form st)))%nat ->
   length (providers (form (removeProvider i st)))
   = (length (providers (form st)) - 1)%nat
   /\ (forall j, (j < i)%nat ->
         providers (form (removeProvider i st)) !! j = providers (form st) !! j)
   /\ (forall j, (i <= j)%nat ->
         providers (form (removeProvider i st)) !! j = providers (form st) !! S j))
  /\ ((length (providers (form st)) <= i)%nat -> removeProvider i st = st).
Proof.
  unfold removeProvider, setProviders, reset, remove. cbn [form providers]. split.
  - intros Hi. split; [|split].
    + apply length_delete. now apply lookup_lt_is_Some.
    + intros j Hj. now apply list_lookup_delete_lt.
    + intros j Hj. now apply list_lookup_delete_ge.
  - intros Hi. rewrite delete_out_of_range by exact Hi. apply State_eta.
Qed.

(** X16. After [appendModel] on a provider a submission fails: the errors
    of the form include, at the [apiName] and at the [uiName] of the new
    model, that the field is required, and the output text stays what it
    was. *)
Theorem X16_append_model_then_submit (st : State) (i : nat) (p : Provider) :
  providers (form st) !! i = Some p ->
  let st' := appendModel i st in
  let j := length (models p) in
  exists issues,
    handleSubmit st' = (st', [form_errors issues])
    /\ List.In (Issue too_small
                  [PKey "providers"; PIndex i; PKey "models"; PIndex j; PKey "apiName"]
                  (u16 "API Name is required.") []) issues
    /\ List.In (Issue too_small
                  [PKey "providers"; PIndex i; PKey "models"; PIndex j; PKey "uiName"]
                  (u16 "UI Name is required.") []) issues.
Proof.
  intros Hi st' j.
  assert (Hi' : providers (form st') !! i
                = Some (withModels (fun ms => append ms emptyModel) p)).
  { subst st'. unfold appendModel, setProviders, reset. cbn [form providers].
    now rewrite list_lookup_alter_eq, Hi. }
  assert (Hmodel : forall issue,
            List.In issue (Model_issues
                             ([PKey "providers"; PIndex i] ++ [PKey "models"] ++ [PIndex j])
                             emptyModel) ->
            List.In issue (Providers_issues [PKey "providers"] (providers (form st')))).
  { intros issue Hin.
    apply (items_issues_lookup Provider_issues _ _ 0%nat i _ issue Hi').
    unfold Provider_issues. do 4 (apply in_or_app; right).
    cbn [withModels models].
    apply (items_issues_lookup Model_issues _ _ 0%nat j emptyModel).
    - unfold append. subst j. now rewrite list_lookup_middle.
    - cbn [Nat.add]. now rewrite <- !app_assoc. }
  assert (H1 : List.In (Issue too_small
                  [PKey "providers"; PIndex i; PKey "models"; PIndex j; PKey "apiName"]
                  (u16 "API Name is required.") [])
                 (Providers_issues [PKey "providers"] (providers (form st'))))
    by (apply Hmodel; now left).
  eexists. rewrite (handleSubmit_invalid st' _ H1). repeat split; [exact H1|].
  apply Hmodel. right. now left.
Qed.

(** ** The output box, over any run of events *)

Lemma dispatch_output (st : State) (e : Event) :
  outputJson (dispatch st e) = outputJson st
  \/ (forallb Provider_ok (providers (form st)) = true
      /\ outputJson (dispatch st e) = oneLine (providers (form st))).
Proof.
  destruct e; cbn [dispatch]; try (left; reflexivity).
  - left. destruct (handleImport_cases st)
      as [[_ H]|[[_ H]|[(parsed & issues & _ & _ & H)|(parsed & data & _ & _ & H)]]];
      now rewrite H.
  - destruct (handleSubmit_cases st) as [[Hok H]|[_ [_ H]]]; rewrite H.
    + right. now split.
    + now left.
Qed.

Lemma oneLine_truthy (ps : list Provider) : truthy (oneLine ps) = true.
Proof. reflexivity. Qed.

(** X17. Once the output card is shown it stays shown: no event empties
    the output text. *)
Theorem X17_output_stays_shown (events : list Event) (st : State) :
  outputShown st = true -> outputShown (dispatchAll st events) = true.
Proof.
  unfold dispatchAll. revert st.
  induction events as [|e events IH]; intros st Hshown; [exact Hshown|].
  cbn [fold_left]. apply IH. unfold outputShown in *.
  destruct (dispatch_output st e) as [-> | [_ ->]]; [exact Hshown|].
  apply oneLine_truthy.
Qed.

Lemma dispatchAll_exported (events : list Event) :
  forall st,
    outputJson st = [] \/ exported (outputJson st) ->
    outputJson (dispatchAll st events) = []
    \/ exported (outputJson (dispatchAll st events)).
Proof.
  unfold dispatchAll.
  induction events as [|e events IH]; intros st Hst; [exact Hst|].
  cbn [fold_left]. apply IH.
  destruct (dispatch_output st e) as [-> | [Hok ->]]; [exact Hst|].
  right. now exists (providers (form st)).
Qed.

(** X18. Whatever the user does from the start of the page, when the
    output card is shown its text is the one-line text of providers that
    are all in order, and pasting it into the import field and importing
    succeeds and gives those providers. *)
Theorem X18_output_always_imports (events : list Event) :
  let st := dispatchAll initialState events in
  outputShown st = true ->
  exists ps,
    outputJson st = oneLine ps
    /\ Forall accepted ps
    /\ handleImport (setImportJson (outputJson st) st)
       = (reset {| providers := ps |} (setImportJson (outputJson st) st),
          ImportSuccessful).
Proof.
  intros st Hshown. subst st.
  destruct (dispatchAll_exported events initialState (or_introl eq_refl))
    as [Hempty|[ps [Hok Htext]]].
  - unfold outputShown in Hshown. rewrite Hempty in Hshown. discriminate.
  - exists ps. split; [exact Htext|]. split; [now apply Forall_accepted_ok|].
    rewrite Htext. now apply reimport.
Qed.

(** ** Where the issues of an import lie *)

Lemma clean_string (s : ZodString) : clean (ZodString_parse s).
Proof.
  intros path [[| | |data| |]|] a; cbn; try discriminate.
  destruct (flat_map (runStringCheck path data) s); [reflexivity|discriminate].
Qed.

Lemma clean_boolean : clean z_boolean.
Proof. intros path [[| | | | |]|] a; cbn; first [reflexivity|discriminate]. Qed.

Lemma clean_literal (expected : jstring) : clean (z_literal expected).
Proof.
  intros path input a. unfold z_literal.
  destruct (isLiteral expected input); cbn; [reflexivity|discriminate].
Qed.

Lemma clean_widen {A B : Type} (f : A -> B) (s : ZodType A) :
  clean s -> clean (widen f s).
Proof.
  intros Hs path input b. specialize (Hs path input). unfold widen.
  destruct (s path input) as [[|a|a] issues]; cbn in *; try discriminate.
  intros _. now apply (Hs a).
Qed.

Lemma clean_optional {A : Type} (s : ZodType A) : clean s -> clean (z_optional s).
Proof.
  intros Hs path [v|] a; [|reflexivity]. apply (clean_widen Some s Hs).
Qed.

Lemma clean_or {A : Type} (a b : ZodType A) : clean (z_or a b).
Proof.
  intros path input x. unfold z_or.
  destruct (a path input) as [[| |] ia], (b path input) as [[| |] ib];
    cbn; first [reflexivity|discriminate].
Qed.

Lemma clean_items {A : Type} (element : ZodType A) :
  clean element ->
  forall path i items l,
    fst (parseItems element path i items) = OK l ->
    snd (parseItems element path i items) = [].
Proof.
  intros He path i items. revert i.
  induction items as [|item items IH]; intros i l; [reflexivity|].
  cbn [parseItems]. specialize (He (path ++ [PIndex i]) (Some item)).
  specialize (IH (S i)).
  destruct (element (path ++ [PIndex i]) (Some item)) as [r issues].
  destruct (parseItems element path (S i) items) as [rs more].
  cbn [fst snd] in *. intros [a [l' [-> [-> _]]]]%merge_OK.
  now rewrite (He a eq_refl), (IH l' eq_refl).
Qed.

Lemma clean_array {A : Type} (element : ZodType A) minLength :
  clean element -> clean (z_array element minLength).
Proof.
  intros He path [[| | | |items|]|] l; cbn [z_array fst snd]; try discriminate.
  pose proof (clean_items element He path 0%nat items) as H.
  destruct (parseItems element path 0 items) as [rs issues]. cbn [fst snd] in *.
  intros [u [l' [Hmin [-> _]]]]%merge_OK. rewrite (H l' eq_refl), app_nil_r.
  match goal with
  | Hmin : dirtyIf ?found _ = OK _ |- _ => destruct found; [reflexivity|discriminate]
  end.
Qed.

Lemma clean_shape_of {A : Type} (constructor : A) : shape_clean (shape_of constructor).
Proof. intros path members a _. reflexivity. Qed.

Lemma clean_shape_key {A B : Type} (sh : ObjectShape (A -> B)) key (s : ZodType A) :
  shape_clean sh -> clean s -> shape_clean (shape_key sh key s).
Proof.
  intros Hsh Hs path members b. unfold shape_key.
  specialize (Hsh path members).
  specialize (Hs (path ++ [PKey key]) (Get (u16 key) members)).
  destruct (sh path members) as [rf issues].
  destruct (s (path ++ [PKey key]) (Get (u16 key) members)) as [ra more].
  cbn [fst snd] in *. intros [f [a [-> [-> _]]]]%merge_OK.
  now rewrite (Hsh f eq_refl), (Hs a eq_refl).
Qed.

Lemma clean_object {A : Type} (sh : ObjectShape A) : shape_clean sh -> clean (z_object sh).
Proof.
  intros Hsh path [[| | | | |members]|] a; cbn; try discriminate. apply Hsh.
Qed.

Create HintDb clean.

#[local] Hint Resolve clean_string clean_boolean clean_literal clean_widen clean_optional
  clean_or clean_array clean_shape_of clean_shape_key clean_object : clean.

Lemma clean_ModelSchema : clean ModelSchema.
Proof. unfold ModelSchema. auto 10 with clean. Qed.

#[local] Hint Resolve clean_ModelSchema : clean.

Lemma clean_ProviderSchema : clean ProviderSchema.
Proof. unfold ProviderSchema. auto 10 with clean. Qed.

Lemma invalid_type_issue_path (path : Path) expected input :
  issue_path (invalid_type_issue path expected input) = path.
Proof. reflexivity. Qed.

Lemma under_here (path : Path) (issue : ZodIssue) :
  issue_path issue = path -> exists rest, issue_path issue = path ++ rest.
Proof. intros ->. exists []. now rewrite app_nil_r. Qed.

Lemma under_string (s : ZodString) : under (ZodString_parse s).
Proof.
  intros path [[| | |data| |]|] issue; cbn [ZodString_parse snd];
    try (intros [<-|[]]; now apply under_here).
  intros [c [_ Hc]]%in_flat_map. apply under_here.
  destruct c as [minimum message|message]; cbn [runStringCheck] in Hc.
  - destruct (length data <? minimum)%nat; [|contradiction]. now destruct Hc as [<-|[]].
  - destruct (URL_canParse data); [contradiction|]. now destruct Hc as [<-|[]].
Qed.

Lemma under_boolean : under z_boolean.
Proof.
  intros path [[| | | | |]|] issue; cbn [z_boolean snd];
    try contradiction; intros [<-|[]]; now apply under_here.
Qed.

Lemma under_literal (expected : jstring) : under (z_literal expected).
Proof.
  intros path input issue. unfold z_literal.
  destruct (isLiteral expected input); cbn [snd]; [contradiction|].
  intros [<-|[]]. now apply under_here.
Qed.

Lemma under_widen {A B : Type} (f : A -> B) (s : ZodType A) : under s -> under (widen f s).
Proof.
  intros Hs path input issue. specialize (Hs path input issue). unfold widen.
  destruct (s path input) as [r issues]. exact Hs.
Qed.

Lemma under_optional {A : Type} (s : ZodType A) : under s -> under (z_optional s).
Proof.
  intros Hs path [v|] issue; [|contradiction]. apply (under_widen Some s Hs).
Qed.

Lemma under_or {A : Type} (a b : ZodType A) : under a -> under b -> under (z_or a b).
Proof.
  intros Ha Hb path input issue.
  specialize (Ha path input issue). specialize (Hb path input issue). unfold z_or.
  destruct (a path input) as [[| |] ia], (b path input) as [[| |] ib];
    cbn [snd] in *; try contradiction; try assumption.
  intros [<-|[]]. now apply under_here.
Qed.

Lemma parseItems_issues_In {A : Type} (element : ZodType A) (path : Path)
    (items : list value) :
  forall (k : nat) (issue : ZodIssue),
    List.In issue (snd (parseItems element path k items))
    <-> exists i item,
          items !! i = Some item
          /\ List.In issue (snd (element (path ++ [PIndex (k + i)]) (Some item))).
Proof.
  induction items as [|item items IH]; intros k issue.
  - split; [contradiction|]. intros [i [x [[=] _]]].
  - cbn [parseItems]. specialize (IH (S k) issue).
    destruct (element (path ++ [PIndex k]) (Some item)) as [r issues] eqn:E.
    destruct (parseItems element path (S k) items) as [rs more]. cbn [snd] in *.
    rewrite in_app_iff, IH. split.
    + intros [Hin|[i [x [Hi Hin]]]].
      * exists 0%nat, item. split; [reflexivity|]. now rewrite Nat.add_0_r, E.
      * exists (S i), x. split; [exact Hi|].
        now replace (k + S i)%nat with (S k + i)%nat by lia.
    + intros [[|i] [x [Hi Hin]]].
      * left. injection Hi as <-. now rewrite Nat.add_0_r, E in Hin.
      * right. exists i, x. split; [exact Hi|].
        now replace (S k + i)%nat with (k + S i)%nat by lia.
Qed.

Lemma under_array {A : Type} (element : ZodType A) minLength :
  under element -> under (z_array element minLength).
Proof.
  intros He path [[| | | |items|]|] issue; cbn [z_array snd];
    try (intros [<-|[]]; now apply under_here).
  pose proof (parseItems_issues_In element path items 0%nat issue) as H.
  destruct (parseItems element path 0 items) as [rs issues]. cbn [snd] in *.
  intros [Hin|Hin]%in_app_or.
  - destruct minLength as [[minimum message]|]; [|contradiction].
    destruct (length items <? minimum)%nat; [|contradiction].
    destruct Hin as [<-|[]]. now apply under_here.
  - apply H in Hin as [i [item [_ Hin]]]. apply He in Hin as [rest ->].
    rewrite <- app_assoc. eauto.
Qed.

Lemma under_shape_of {A : Type} (constructor : A) : shape_under (shape_of constructor).
Proof. intros path members issue []. Qed.

Lemma under_shape_key {A B : Type} (sh : ObjectShape (A -> B)) key (s : ZodType A) :
  shape_under sh -> under s -> shape_under (shape_key sh key s).
Proof.
  intros Hsh Hs path members issue. unfold shape_key.
  specialize (Hsh path members issue).
  specialize (Hs (path ++ [PKey key]) (Get (u16 key) members) issue).
  destruct (sh path members) as [rf issues].
  destruct (s (path ++ [PKey key]) (Get (u16 key) members)) as [ra more].
  cbn [snd] in *. intros [Hin|Hin]%in_app_or; [now apply Hsh|].
  apply Hs in Hin as [rest ->]. rewrite <- app_assoc. eauto.
Qed.

Lemma under_object {A : Type} (sh : ObjectShape A) : shape_under sh -> under (z_object sh).
Proof.
  intros Hsh path [[| | | | |members]|] issue; cbn [z_object snd];
    try (intros [<-|[]]; now apply under_here).
  apply Hsh.
Qed.

Create HintDb under.

#[local] Hint Resolve under_string under_boolean under_literal under_widen under_optional
  under_or under_array under_shape_of under_shape_key under_object : under.

Lemma under_ModelSchema : under ModelSchema.
Proof. unfold ModelSchema. auto 10 with under. Qed.

#[local] Hint Resolve under_ModelSchema : under.

Lemma under_ProviderSchema : under ProviderSchema.
Proof. unfold ProviderSchema. auto 10 with under. Qed.

Lemma safeParse_failure_issues {A : Type} (schema : ZodType A) (v : value) issues :
  safeParse schema v = failure issues -> issues = snd (schema [] (Some v)).
Proof.
  unfold safeParse. destruct (schema [] (Some v)) as [[| |] found]; now intros [= <-].
Qed.

(** X19. When the pasted array fails the list schema, the issues name
    exactly the items the provider schema rejects: every rejected item has
    an issue whose path starts with its index, and every issue whose path
    starts with an index belongs to a rejected item.  One bad provider does
    not hide another, and a good one is never blamed. *)
Theorem X19_import_issues_by_item (items : list value) (issues : list ZodIssue)
    (i : nat) :
  safeParse ProvidersListSchema (VArr items) = failure issues ->
  (exists item, items !! i = Some item
                /\ forall p, safeParse ProviderSchema item <> success p)
  <-> (exists issue rest,
         List.In issue issues /\ issue_path issue = PIndex i :: rest).
Proof.
  intros ->%safeParse_failure_issues.
  assert (Hin : forall issue,
            List.In issue (snd (ProvidersListSchema [] (Some (VArr items))))
            <-> exists j item,
                  items !! j = Some item
                  /\ List.In issue (snd (ProviderSchema [PIndex j] (Some item)))).
  { intros issue. unfold ProvidersListSchema, z_array.
    pose proof (parseItems_issues_In ProviderSchema [] items 0%nat issue) as H.
    destruct (parseItems ProviderSchema [] 0 items) as [rs found]. exact H. }
  split.
  - intros [item [Hi Hbad]].
    pose proof (reports_ProviderSchema [PIndex i] (Some item)) as Hrep.
    destruct (ProviderSchema [PIndex i] (Some item)) as [r found] eqn:E.
    cbn [fst snd] in Hrep.
    assert (Hfound : found <> []).
    { destruct r as [| p | p]; try exact Hrep.
      exfalso. apply (Hbad p). apply safeParse_success.
      apply ProviderSchema_OK. apply (ProviderSchema_OK [PIndex i]). now rewrite E. }
    destruct found as [|issue found]; [contradiction|].
    assert (Hissue : List.In issue (snd (ProviderSchema [PIndex i] (Some item))))
      by (rewrite E; now left).
    destruct (under_ProviderSchema _ _ _ Hissue) as [rest Hpath].
    exists issue, rest. split; [|exact Hpath].
    apply Hin. now exists i, item.
  - intros [issue [rest [Hissue Hpath]]].
    apply Hin in Hissue as [j [item [Hj Hissue]]].
    destruct (under_ProviderSchema _ _ _ Hissue) as [rest' Hpath'].
    rewrite Hpath' in Hpath. injection Hpath as Hji _. subst j.
    exists item. split; [exact Hj|]. intros p Hp.
    apply safeParse_success, ProviderSchema_OK in Hp.
    apply (ProviderSchema_OK [PIndex i]) in Hp.
    rewrite (clean_ProviderSchema _ _ _ Hp) in Hissue. contradiction.
Qed.

(** X20. A pasted JSON value that is not an array is refused with a single
    issue, at the root, that an array was expected: so a provider object
    pasted on its own, without the brackets around it, is not imported. *)
Theorem X20_import_needs_an_array (v : value) :
  (forall items, v <> VArr items) ->
  safeParse ProvidersListSchema v = failure [invalid_type_issue [] t_array (Some v)].
Proof.
  intros Hv. destruct v as [| b | n | s | items | members]; try reflexivity.
  now destruct (Hv items).
Qed.

(** ** What the events leave alone *)

Lemma dispatch_importJson (st : State) (e : Event) :
  isImportTextChanged e = false -> importJson (dispatch st e) = importJson st.
Proof.
  destruct e; cbn [dispatch isImportTextChanged]; try discriminate; intros _;
    try reflexivity.
  - destruct (handleImport_cases st)
      as [[_ H]|[[_ H]|[(parsed & issues & _ & _ & H)|(parsed & data & _ & _ & H)]]];
      now rewrite H.
  - destruct (handleSubmit_cases st) as [[_ H]|[_ [_ H]]]; now rewrite H.
Qed.

(** X21. The output text is a snapshot: only a submission writes it.
    Edits, added and removed entries and imports leave it as it is, even
    when the form no longer holds what it shows.  Likewise the pasted text
    changes only when the user types in the import field. *)
Theorem X21_output_is_a_snapshot (events : list Event) (st : State) :
  (forallb (fun e => negb (isFormSubmitted e)) events = true ->
   outputJson (dispatchAll st events) = outputJson st)
  /\ (forallb (fun e => negb (isImportTextChanged e)) events = true ->
      importJson (dispatchAll st events) = importJson st).
Proof.
  unfold dispatchAll. revert st.
  induction events as [|e events IH]; intros st; [now split|].
  cbn [fold_left forallb]. destruct (IH (dispatch st e)) as [IH1 IH2]. split.
  - intros [He Hes]%andb_true_iff. rewrite (IH1 Hes).
    destruct e; try discriminate; cbn [dispatch]; try reflexivity.
    destruct (handleImport_cases st)
      as [[_ H]|[[_ H]|[(parsed & issues & _ & _ & H)|(parsed & data & _ & _ & H)]]];
      now rewrite H.
  - intros [He Hes]%andb_true_iff. rewrite (IH2 Hes).
    apply dispatch_importJson. now apply negb_true_iff.
Qed.

(** X22. An import replaces, it does not merge: what it reports, and on
    success the whole form, depend on the pasted text alone and not on
    what the form held before. *)
Theorem X22_import_replaces (st1 st2 : State) :
  importJson st1 = importJson st2 ->
  snd (handleImport st1) = snd (handleImport st2)
  /\ (snd (handleImport st1) = ImportSuccessful ->
      form (fst (handleImport st1)) = form (fst (handleImport st2))).
Proof.
  intros Htext. unfold handleImport, handleImportWith. rewrite Htext.
  destruct (truthy (trim (importJson st2))); cbn [negb]; [|split; [reflexivity|discriminate]].
  destruct (JSON_parse (importJson st2)) as [parsed|]; [|split; [reflexivity|discriminate]].
  destruct (safeParse ProvidersListSchema parsed); split; try reflexivity; discriminate.
Qed.

Lemma Model_toValue_inj (m m' : Model) : Model_toValue m = Model_toValue m' -> m = m'.
Proof. destruct m, m'. unfold Model_toValue. cbn. now intros [= -> -> ->]. Qed.

Lemma map_inj {A B : Type} (f : A -> B) :
  (forall x y, f x = f y -> x = y) -> forall l l', map f l = map f l' -> l = l'.
Proof.
  intros Hf l. induction l as [|x l IH]; intros [|y l']; cbn; try discriminate;
    [reflexivity|].
  intros [= Hxy Hl]. f_equal; [now apply Hf|now apply IH].
Qed.

Lemma Provider_toValue_inj (p p' : Provider) :
  Provider_toValue p = Provider_toValue p' -> p = p'.
Proof.
  destruct p as [a k b ms], p' as [a' k' b' ms'].
  unfold Provider_toValue, Provider_members. cbn [provider apiKeyEnvVar baseUrl models].
  destruct b as [b|], b' as [b'|]; cbn [app]; intros H; simplify_eq;
    match goal with
    | Hms : map Model_toValue _ = map Model_toValue _ |- _ =>
        apply (map_inj _ Model_toValue_inj) in Hms; now subst
    end.
Qed.

(** X23. The export loses nothing: the text [onSubmit] writes parses back
    to the providers it was given, and two submissions that write the same
    text were given the same providers. *)
Theorem X23_export_injective (data data' : FormValues) (st st' : State) :
  JSON_parse (outputJson (fst (onSubmit data st)))
  = Some (Providers_toValue (providers data))
  /\ (outputJson (fst (onSubmit data st)) = outputJson (fst (onSubmit data' st')) ->
      data = data').
Proof.
  cbn [onSubmit fst setOutputJson outputJson].
  assert (Hparse : forall qs, JSON_parse (JSON_stringify (Providers_toValue qs))
                              = Some (Providers_toValue qs)).
  { intros qs. apply JSON_parse_stringify, number_free_Providers. }
  split; [apply Hparse|]. intros Htext.
  pose proof (Hparse (providers data)) as H. rewrite Htext, Hparse in H.
  injection H as H. apply (map_inj _ Provider_toValue_inj) in H.
  destruct data, data'. cbn [providers] in H. now subst.
Qed.

End ProviderManager.

(** * The claims on the example platform *)

Lemma C1_roundtrip_witness :
  exists parsed,
    JSON_parse LiteralNumber literalOf
      (outputJson (fst (onSubmit LiteralNumber literalToJSON defaultValues initialState)))
    = Some parsed
    /\ safeParse LiteralNumber (ProvidersListSchema LiteralNumber anyAfterScheme) parsed
       = success [defaultProvider].
Proof.
  assert (Hvalid : Forall (accepted LiteralNumber anyAfterScheme) [defaultProvider]).
  { constructor; [|constructor]. exists defaultProvider. vm_compute. reflexivity. }
  destruct (C1_roundtrip LiteralNumber literalOf literalToJSON anyAfterScheme
              [defaultProvider] initialState Hvalid) as [parsed [Hparse [Hschema _]]].
  exists parsed. split; [exact Hparse|exact Hschema].
Defined.

Lemma C2_import_atomic_witness :
  exists issues,
    handleImport LiteralNumber literalOf anyAfterScheme invalidPasted
    = (invalidPasted, ValidationError issues)
    /\ issues <> [].
Proof.
  eexists.
  eapply (C2_import_atomic LiteralNumber literalOf anyAfterScheme invalidPasted).
  - vm_compute. reflexivity.
  - vm_compute. reflexivity.
Defined.

Lemma C3_submit_one_line_witness :
  handleSubmit LiteralNumber literalToJSON anyAfterScheme initialState
  = (setOutputJson groqJson initialState,
     [form_errors [];
      toast_success "JSON Generated!" "The one-line JSON has been created below."])
  /\ outputJson
       (fst (handleSubmit LiteralNumber literalToJSON anyAfterScheme
               (fst (handleImport LiteralNumber literalOf anyAfterScheme
                       (setImportJson groqJson nothingPasted)))))
     = groqJson.
Proof.
  assert (Hvalid : safeParse LiteralNumber (FormSchema LiteralNumber anyAfterScheme)
                     (FormValues_toValue LiteralNumber (form initialState))
                   = success defaultValues) by (vm_compute; reflexivity).
  destruct (C3_submit_one_line LiteralNumber literalOf literalToJSON anyAfterScheme
              initialState defaultValues Hvalid) as [Hsubmit [_ [_ [Hgroq Himport]]]].
  split.
  - rewrite Hsubmit. cbn [initialState form]. now rewrite Hgroq.
  - apply Himport. vm_compute. reflexivity.
Defined.

Lemma C4_parse_error_witness :
  handleImport LiteralNumber literalOf anyAfterScheme notJsonPasted
  = (notJsonPasted, ParseError).
Proof.
  apply (C4_parse_error LiteralNumber literalOf anyAfterScheme notJsonPasted).
  - vm_compute. reflexivity.
  - vm_compute. reflexivity.
Defined.

(** C4 as it is stated fails on the empty text: it is not JSON, and what
    [handleImport] reports is the empty-input error, not the parse error. *)
Lemma C4_counterexample :
  JSON_parse LiteralNumber literalOf (importJson nothingPasted) = None
  /\ handleImport LiteralNumber literalOf anyAfterScheme nothingPasted
     = (nothingPasted, EmptyInputError)
  /\ handleImport LiteralNumber literalOf anyAfterScheme nothingPasted
     <> (nothingPasted, ParseError).
Proof. repeat split. discriminate. Qed.

Lemma C5_remove_only_model_witness :
  exists issues,
    handleSubmit LiteralNumber literalToJSON anyAfterScheme (removeModel 0 0 initialState)
    = (removeModel 0 0 initialState, [form_errors issues])
    /\ List.In (Issue too_small [PKey "providers"; PIndex 0; PKey "models"]
                  (u16 "At least one model is required.") []) issues.
Proof.
  destruct (C5_remove_only_model LiteralNumber literalToJSON anyAfterScheme initialState
              0%nat defaultProvider
              {| apiName := u16 "llama3-8b-8192"; uiName := u16 "Llama 3 8B";
                 supportsTools := true |} eq_refl eq_refl)
    as [_ [_ [issues [Hsubmit [Hin _]]]]].
  exists issues. split; [exact Hsubmit|exact Hin].
Defined.

Lemma C10_empty_input_witness :
  handleImport LiteralNumber literalOf anyAfterScheme nothingPasted
  = (nothingPasted, EmptyInputError).
Proof.
  apply (C10_empty_input LiteralNumber literalOf anyAfterScheme nothingPasted).
  reflexivity.
Defined.

(** * The further properties on the example platform *)

Lemma X4_import_then_submit_witness :
  outputJson
    (fst (handleSubmit LiteralNumber literalToJSON anyAfterScheme
            (fst (handleImport LiteralNumber literalOf anyAfterScheme groqPasted))))
  = groqJson.
Proof.
  destruct (X4_import_then_submit LiteralNumber literalOf literalToJSON anyAfterScheme
              groqPasted) as [H _].
  - vm_compute. reflexivity.
  - rewrite H. vm_compute. reflexivity.
Defined.

Lemma X5_import_touches_only_the_form_witness :
  fst (handleImport LiteralNumber literalOf anyAfterScheme notJsonPasted) = notJsonPasted.
Proof.
  destruct (X5_import_touches_only_the_form LiteralNumber literalOf anyAfterScheme
              notJsonPasted) as [_ [_ [H _]]].
  apply H. vm_compute. discriminate.
Defined.


Lemma X9_unknown_keys_stripped_witness :
  ProviderSchema LiteralNumber anyAfterScheme []
    (Some (VObj LiteralNumber
             ((u16 "note", VNull LiteralNumber) :: Provider_members LiteralNumber defaultProvider)))
  = ProviderSchema LiteralNumber anyAfterScheme []
      (Some (VObj LiteralNumber (Provider_members LiteralNumber defaultProvider))).
Proof.
  apply (proj1 (X9_unknown_keys_stripped LiteralNumber anyAfterScheme [] (u16 "note")
                  (VNull LiteralNumber) [] (Provider_members LiteralNumber defaultProvider))).
  intros H. repeat (destruct H as [H|H]; [discriminate H|]). exact H.
Defined.

Lemma X10_member_order_irrelevant_witness :
  ModelSchema LiteralNumber anyAfterScheme []
    (Some (VObj LiteralNumber
             [(u16 "uiName", VStr LiteralNumber (u16 "M"));
              (u16 "apiName", VStr LiteralNumber (u16 "m"))]))
  = ModelSchema LiteralNumber anyAfterScheme []
      (Some (VObj LiteralNumber
               [(u16 "apiName", VStr LiteralNumber (u16 "m"));
                (u16 "uiName", VStr LiteralNumber (u16 "M"))])).
Proof.
  apply (X10_member_order_irrelevant LiteralNumber anyAfterScheme []).
  - constructor; [|constructor; [intros []|constructor]].
    intros [H|[]]. discriminate H.
  - apply perm_swap.
Defined.

Lemma X11_leading_non_JSON_space_witness :
  handleImport LiteralNumber literalOf anyAfterScheme nbspPasted = (nbspPasted, ParseError).
Proof.
  apply (X11_leading_non_JSON_space LiteralNumber literalOf anyAfterScheme nbspPasted
           160 groqJson); reflexivity.
Defined.

Lemma X12_padding_ignored_witness :
  form (fst (handleImport LiteralNumber literalOf anyAfterScheme
               (setImportJson ([32; 10] ++ importJson groqPasted ++ [10; 9]) groqPasted)))
  = form (fst (handleImport LiteralNumber literalOf anyAfterScheme groqPasted)).
Proof.
  apply (X12_padding_ignored LiteralNumber literalOf anyAfterScheme groqPasted
           [32; 10] [10; 9]); reflexivity.
Defined.

Lemma X14_append_remove_model_witness :
  removeModel 0 (length (models defaultProvider)) (appendModel 0 initialState)
  = initialState.
Proof. apply (X14_append_remove_model initialState 0%nat defaultProvider). reflexivity. Defined.

Lemma X15_removeProvider_by_index_witness :
  length (providers (form (removeProvider 0 initialState))) = 0%nat
  /\ removeProvider 1 initialState = initialState.
Proof.
  destruct (X15_removeProvider_by_index initialState 0%nat) as [Hin _].
  destruct (X15_removeProvider_by_index initialState 1%nat) as [_ Hout].
  split.
  - destruct Hin as [Hlen _]; [cbn; lia|exact Hlen].
  - apply Hout. cbn. lia.
Defined.

Lemma X16_append_model_then_submit_witness :
  exists issues,
    handleSubmit LiteralNumber literalToJSON anyAfterScheme (appendModel 0 initialState)
    = (appendModel 0 initialState, [form_errors issues])
    /\ List.In (Issue too_small
                  [PKey "providers"; PIndex 0; PKey "models"; PIndex 1; PKey "apiName"]
                  (u16 "API Name is required.") []) issues.
Proof.
  destruct (X16_append_model_then_submit LiteralNumber literalToJSON anyAfterScheme
              initialState 0%nat defaultProvider eq_refl) as [issues [H1 [H2 _]]].
  exists issues. split; [exact H1|exact H2].
Defined.

Lemma X17_output_stays_shown_witness :
  outputShown
    (dispatchAll LiteralNumber literalOf literalToJSON anyAfterScheme
       (setOutputJson (u16 "[]") initialState)
       [AddProviderClicked; ImportClicked; RemoveModelClicked 0 0])
  = true.
Proof.
  apply (X17_output_stays_shown LiteralNumber literalOf literalToJSON anyAfterScheme).
  reflexivity.
Defined.

Lemma X18_output_always_imports_witness :
  exists ps,
    outputJson (dispatchAll LiteralNumber literalOf literalToJSON anyAfterScheme
                  initialState [FormSubmitted; AddProviderClicked])
    = oneLine ps.
Proof.
  destruct (X18_output_always_imports LiteralNumber literalOf literalToJSON anyAfterScheme
              [FormSubmitted; AddProviderClicked]) as [ps [H _]].
  - vm_compute. reflexivity.
  - exists ps. exact H.
Defined.

Lemma X19_import_issues_by_item_witness :
  exists issue rest,
    List.In issue
      (snd (ProvidersListSchema LiteralNumber anyAfterScheme []
              (Some (VArr LiteralNumber
                       [Provider_toValue LiteralNumber defaultProvider;
                        Provider_toValue LiteralNumber emptyProvider]))))
    /\ issue_path issue = PIndex 1 :: rest.
Proof.
  apply (X19_import_issues_by_item LiteralNumber anyAfterScheme
           [Provider_toValue LiteralNumber defaultProvider;
            Provider_toValue LiteralNumber emptyProvider]).
  - vm_compute. reflexivity.
  - exists (Provider_toValue LiteralNumber emptyProvider). split; [reflexivity|].
    intros p Hp. vm_compute in Hp. discriminate Hp.
Defined.

Lemma X20_import_needs_an_array_witness :
  safeParse LiteralNumber (ProvidersListSchema LiteralNumber anyAfterScheme)
    (Provider_toValue LiteralNumber defaultProvider)
  = failure [invalid_type_issue LiteralNumber [] t_array
               (Some (Provider_toValue LiteralNumber defaultProvider))].
Proof.
  apply (X20_import_needs_an_array LiteralNumber anyAfterScheme).
  intros items. discriminate.
Defined.

Lemma X21_output_is_a_snapshot_witness :
  outputJson
    (dispatchAll LiteralNumber literalOf literalToJSON anyAfterScheme
       initialState [AddProviderClicked; ImportClicked; ProviderChanged 0 (u16 "x")])
  = outputJson initialState.
Proof.
  apply (proj1 (X21_output_is_a_snapshot LiteralNumber literalOf literalToJSON
                  anyAfterScheme _ initialState)).
  reflexivity.
Defined.

Lemma X22_import_replaces_witness :
  snd (handleImport LiteralNumber literalOf anyAfterScheme groqPasted)
  = snd (handleImport LiteralNumber literalOf anyAfterScheme (appendProvider groqPasted)).
Proof.
  apply (X22_import_replaces LiteralNumber literalOf anyAfterScheme
           groqPasted (appendProvider groqPasted)).
  reflexivity.
Defined.

Lemma X23_export_injective_witness : defaultValues = defaultValues.
Proof.
  apply (proj2 (X23_export_injective LiteralNumber literalOf literalToJSON
                  defaultValues defaultValues initialState nothingPasted)).
  reflexivity.
Defined.
